(** * Caregiver-Handoff: the rule matcher and the note formatter of [app.py]

    A shallow embedding of the three pure functions of [app.py]
    ([find_red_flags], [generate_support_suggestions], [format_log_entry])
    together with the part of Python's [re] and [str] they rely on, and the
    properties of the specification proved about them.

    Layout: the embedding of the code, the definitions the statements
    need, the lemmas, and last the claims of the specification. *)

From Stdlib Require Import String Ascii NArith ZArith Lia DecimalString.
From stdpp Require Import base option list gmap sorting.

Local Open Scope N_scope.
Local Open Scope list_scope.

(** * Part I: the code *)

(** ** Python strings

    A Python [str] is a sequence of Unicode code points. The literals of
    the source file are UTF-8 text; [py] decodes one into its code points. *)

Abbreviation str := (list N).

Fixpoint utf8_decode (bs : list N) : str :=
  match bs with
  | [] => []
  | b0 :: t0 =>
    if b0 <? 0x80 then b0 :: utf8_decode t0
    else if b0 <? 0xE0 then
      match t0 with
      | b1 :: t1 => ((b0 - 0xC0) * 64 + (b1 - 0x80)) :: utf8_decode t1
      | _ => []
      end
    else if b0 <? 0xF0 then
      match t0 with
      | b1 :: b2 :: t2 =>
        ((b0 - 0xE0) * 4096 + (b1 - 0x80) * 64 + (b2 - 0x80)) :: utf8_decode t2
      | _ => []
      end
    else
      match t0 with
      | b1 :: b2 :: b3 :: t3 =>
        ((b0 - 0xF0) * 262144 + (b1 - 0x80) * 4096 + (b2 - 0x80) * 64 + (b3 - 0x80))
          :: utf8_decode t3
      | _ => []
      end
  end.

Definition py (s : string) : str :=
  utf8_decode (map N_of_ascii (list_ascii_of_string s)).
Arguments py : simpl never.

(** Truthiness of a [str] and of a list: only the empty one is falsy. *)
Definition truthy (s : str) : bool :=
  match s with [] => false | _ :: _ => true end.

Definition truthy_list (l : list str) : bool :=
  match l with [] => false | _ :: _ => true end.

(** [a or b] on strings. *)
Definition or_else (a b : str) : str := if truthy a then a else b.

(** Comparison of two [str] values: lexicographic on code points. *)
Fixpoint str_cmp (a b : str) : comparison :=
  match a, b with
  | [], [] => Eq
  | [], _ :: _ => Lt
  | _ :: _, [] => Gt
  | x :: a', y :: b' =>
    match x ?= y with
    | Eq => str_cmp a' b'
    | c => c
    end
  end.

Definition str_lt (a b : str) : Prop := str_cmp a b = Lt.
Definition str_le (a b : str) : Prop := str_cmp a b <> Gt.

#[global] Instance str_le_dec a b : Decision (str_le a b).
Proof. unfold str_le. destruct (str_cmp a b); [left | left | right]; congruence. Defined.

(** ** Character classes

    On ASCII the classes are fixed. Outside ASCII they come from the
    interpreter's Unicode database, which is kept abstract: every theorem
    below holds whatever the database says about non-ASCII code points. *)

Record unicode_db : Type := UnicodeDb {
  db_isalnum : N -> bool;   (* str.isalnum of a non-ASCII code point *)
  db_tolower : N -> N       (* simple lower-case mapping of a non-ASCII code point *)
}.

Definition in_range (lo hi c : N) : bool := (lo <=? c) && (c <=? hi).

Definition ascii_upper (c : N) : bool := in_range 65 90 c.
Definition ascii_lower (c : N) : bool := in_range 97 122 c.
Definition ascii_digit (c : N) : bool := in_range 48 57 c.
Definition ascii_letter (c : N) : bool := ascii_upper c || ascii_lower c.

(** Lower-casing of the ASCII letters only. *)
Definition ascii_fold (c : N) : N := if ascii_upper c then c + 32 else c.

(** [str.isspace] of one code point: the white space [strip] removes. *)
Definition isspace (c : N) : bool :=
  in_range 0x09 0x0D c || in_range 0x1C 0x20 c
  || (c =? 0x85) || (c =? 0xA0) || (c =? 0x1680)
  || in_range 0x2000 0x200A c
  || (c =? 0x2028) || (c =? 0x2029) || (c =? 0x202F) || (c =? 0x205F)
  || (c =? 0x3000).

Section Unicode.
Context (db : unicode_db).

Definition tolower (c : N) : N :=
  if c <? 128 then ascii_fold c else db_tolower db c.

(** A word character of [\b]: alphanumeric or underscore. *)
Definition is_word (c : N) : bool :=
  if c <? 128 then ascii_letter c || ascii_digit c || (c =? 95)
  else db_isalnum db c.

Definition is_word_opt (o : option N) : bool :=
  match o with Some c => is_word c | None => false end.

(** [\b]: exactly one of the two neighbours is a word character; the
    outside of the string counts as a non-word character. *)
Definition at_boundary (prev next : option N) : bool :=
  xorb (is_word_opt prev) (is_word_opt next).

(** Lower-case characters that share their upper case with an ASCII
    letter (the case fixes of the regex compiler): dotless i for [i] and
    long s for [s]. *)
Definition ignorecase_fixes (lo : N) : list N :=
  if lo =? 0x69 then [0x131]
  else if lo =? 0x73 then [0x17F]
  else [].

(** One literal of the pattern against one character of the text. A cased
    literal under IGNORECASE compares lower-cased characters; anything
    else compares exactly. Patterns are ASCII (see [parse_items]), so the
    cased literals are the ASCII letters. *)
Definition lit_match (ignorecase : bool) (p c : N) : bool :=
  if ignorecase && ascii_letter p then
    let lo := ascii_fold p in
    let lc := tolower c in
    (lc =? lo) || existsb (N.eqb lc) (ignorecase_fixes lo)
  else c =? p.

End Unicode.

(** ** Regular expressions: the fragment of [re] the rule tables use *)

Inductive regex : Type :=
| Empty
| Literal (c : N)
| Boundary
| Seq (r1 r2 : regex)
| Branch (r1 r2 : regex).

(** Characters with a meaning of their own in a pattern. *)
Definition special (c : N) : bool :=
  existsb (N.eqb c) (py ".^$*+?{}[]\|()").

(** Recursive-descent parser. [parse_branch] reads [a|b|...] and
    [parse_items] one alternative; both stop in front of a bar (124) and
    of a closing parenthesis (41). A backslash (92) must be followed by
    [b] (98). [None] is a pattern that is malformed or outside the
    fragment (anything but ASCII literals, [\b], groups and alternation). *)
Fixpoint parse_branch (fuel : nat) (s : str) : option (regex * str) :=
  match fuel with
  | O => None
  | S fuel' =>
    match parse_items fuel' s with
    | Some (r1, 124 :: rest) =>
      match parse_branch fuel' rest with
      | Some (r2, rest') => Some (Branch r1 r2, rest')
      | None => None
      end
    | other => other
    end
  end
with parse_items (fuel : nat) (s : str) : option (regex * str) :=
  match fuel with
  | O => None
  | S fuel' =>
    match s with
    | [] => Some (Empty, [])
    | c :: s' =>
      if (c =? 124) || (c =? 41) then Some (Empty, s)
      else if c =? 40 then
        match parse_branch fuel' s' with
        | Some (r1, 41 :: rest) =>
          match parse_items fuel' rest with
          | Some (r2, rest') => Some (Seq r1 r2, rest')
          | None => None
          end
        | _ => None
        end
      else if c =? 92 then
        match s' with
        | 98 :: rest =>
          match parse_items fuel' rest with
          | Some (r2, rest') => Some (Seq Boundary r2, rest')
          | None => None
          end
        | _ => None
        end
      else if special c || negb (c <? 128) then None
      else
        match parse_items fuel' s' with
        | Some (r2, rest') => Some (Seq (Literal c) r2, rest')
        | None => None
        end
    end
  end.

Definition re_compile (pattern : str) : option regex :=
  match parse_branch (2 * length pattern + 2) pattern with
  | Some (r, []) => Some r
  | _ => None
  end.

Section Matcher.
Context (db : unicode_db).

(** Backtracking matcher in continuation style: [k] is the rest of the
    pattern, called with the character before the current position and
    the remaining text. *)
Fixpoint rmatch (ic : bool) (r : regex) (prev : option N) (s : str)
    (k : option N -> str -> bool) : bool :=
  match r with
  | Empty => k prev s
  | Literal p =>
    match s with
    | c :: s' => lit_match db ic p c && k (Some c) s'
    | [] => false
    end
  | Boundary => at_boundary db prev (head s) && k prev s
  | Seq r1 r2 => rmatch ic r1 prev s (fun prev' s' => rmatch ic r2 prev' s' k)
  | Branch r1 r2 => rmatch ic r1 prev s k || rmatch ic r2 prev s k
  end.

Definition accept : option N -> str -> bool := fun _ _ => true.

(** Try every start position, left to right. *)
Fixpoint search_from (ic : bool) (r : regex) (prev : option N) (s : str) : bool :=
  rmatch ic r prev s accept
  || match s with
     | [] => false
     | c :: s' => search_from ic r (Some c) s'
     end.

(** [bool(re.search(pattern, text, flags))]; [None] when the pattern
    does not compile. *)
Definition re_search (pattern text : str) (ignorecase : bool) : option bool :=
  match re_compile pattern with
  | Some r => Some (search_from ignorecase r None text)
  | None => None
  end.

End Matcher.
(** ** The rule tables of [app.py] *)

(** Red-flag patterns, as (pattern, label). *)
Definition RED_FLAGS : list (str * str) := [
  (py "\b(can't breathe|cannot breathe|trouble breathing|difficulty breathing|shortness of breath|blue lips|turning blue)\b", py "Breathing trouble");
  (py "\b(unconscious|not waking|won't wake|passed out|fainted)\b", py "Unresponsive / fainting");
  (py "\b(seizure|convulsion|fit)\b", py "Seizure");
  (py "\b(face droop|slurred speech|can't speak|weakness on one side|one-sided weakness|sudden numbness)\b", py "Possible stroke signs");
  (py "\b(chest pain|pressure in chest|tightness in chest)\b", py "Chest pain/pressure");
  (py "\b(heavy bleeding|won't stop bleeding|bleeding won't stop)\b", py "Uncontrolled bleeding");
  (py "\b(head injury|hit (his|her|their) head|concussion)\b", py "Head injury");
  (py "\b(suicide|kill myself|self harm|hurt myself)\b", py "Self-harm risk")
].

(** Supportive suggestions, as (pattern, suggestion). *)
Definition SUGGESTION_RULES : list (str * str) := [
  (py "\b(confused|confusion|disoriented)\b", py "Confusion can have many causes. Consider checking for recent changes (sleep, hydration, stress, new routines). If sudden or severe, contact a clinician.");
  (py "\b(fever|high temperature)\b", py "Fever can be a sign of infection. If fever is high, persistent, or with worsening symptoms, contact a clinician.");
  (py "\b(fall|fell|slipped)\b", py "After a fall, watch for pain, dizziness, confusion, or head injury signs. If there’s severe pain, head impact, or worsening symptoms, seek urgent care.");
  (py "\b(vomiting|throwing up)\b", py "If vomiting is persistent, there are signs of dehydration, or blood appears, contact urgent care/clinician.");
  (py "\b(dehydrated|dehydration|not drinking)\b", py "Encourage small, frequent sips of water if safe. If the person can’t keep fluids down or seems very weak, contact a clinician.");
  (py "\b(agitated|anxious|panic)\b", py "Try a calm environment, slow breathing, reassurance, and reduce noise. If agitation is severe or unsafe, seek professional help.");
  (py "\b(pain)\b", py "Track pain location, severity (0–10), start time, and what worsens/relieves it. If severe or sudden, contact a clinician.")
].

(** The general advice given when no suggestion rule matches. *)
Definition FALLBACK : str :=
  py "Consider logging what you observe (when it started, what changed, what helps). If symptoms worsen or feel concerning, contact a clinician.".

(** ** The three functions *)

(** [set(hits)] and [sorted(...)] of a set of strings. The iteration order
    of a set is unspecified; sorting makes the result independent of it
    (on strings, equal keys are equal values, so any sorting algorithm
    returns the same list). *)
Definition set (hits : list str) : gset str := list_to_set hits.
Definition sorted (s : gset str) : list str := merge_sort str_le (elements s).

Section Functions.
Context (db : unicode_db).

(** The loop of both functions:
    [for pattern, out in rules: if re.search(pattern, text, flags=re.IGNORECASE): acc.append(out)].
    A pattern that does not compile aborts the loop. *)
Fixpoint scan_rules (rules : list (str * str)) (text : str) (acc : list str)
    : option (list str) :=
  match rules with
  | [] => Some acc
  | (pattern, out) :: rest =>
    match re_search db pattern text true with
    | Some m => scan_rules rest text (if m then acc ++ [out] else acc)
    | None => None
    end
  end.

Definition find_red_flags (text : str) : option (list str) :=
  match scan_rules RED_FLAGS text [] with
  | Some hits => Some (sorted (set hits))
  | None => None
  end.

Definition generate_support_suggestions (text : str) : option (list str) :=
  match scan_rules SUGGESTION_RULES text [] with
  | Some suggestions =>
    Some (if truthy_list suggestions then suggestions else suggestions ++ [FALLBACK])
  | None => None
  end.

End Functions.

(** [str.strip()]: drop the white space at both ends. *)
Fixpoint lstrip (s : str) : str :=
  match s with
  | c :: s' => if isspace c then lstrip s' else s
  | [] => []
  end.

Definition rstrip (s : str) : str := reverse (lstrip (reverse s)).

Definition strip (s : str) : str := rstrip (lstrip s).

(** [str(n)] of an integer. *)
Definition str_of_int (n : Z) : str := py (NilZero.string_of_int (Z.to_int n)).

(** The reading of the clock, and [strftime("%Y-%m-%d %H:%M")] of it
    (years of four digits, as the clock gives them). *)
Record datetime : Type := Datetime {
  year : N; month : N; day : N; hour : N; minute : N
}.

Definition zero_pad (width : nat) (n : N) : str :=
  let digits := py (NilZero.string_of_uint (N.to_uint n)) in
  repeat 48 (width - length digits)%nat ++ digits.

Definition strftime_Ymd_HM (t : datetime) : str :=
  zero_pad 4 (year t) ++ py "-" ++ zero_pad 2 (month t) ++ py "-" ++ zero_pad 2 (day t)
  ++ py " " ++ zero_pad 2 (hour t) ++ py ":" ++ zero_pad 2 (minute t).

Definition nl : str := [10].

(** The f-string of [format_log_entry], line by line. [clock] is the value
    [datetime.now()] returns in the call. The arguments are strings, as the
    form hands them over. *)
Definition format_log_entry (clock : datetime)
    (person_name relationship concern_text : str) (severity : Z) (notes : str) : str :=
  let now := strftime_Ymd_HM clock in
  py "## Care Log Entry (" ++ now ++ py ")" ++ nl
  ++ nl
  ++ py "**Person:** " ++ or_else person_name (py "N/A") ++ py "  " ++ nl
  ++ py "**Relationship:** " ++ or_else relationship (py "N/A") ++ py "  " ++ nl
  ++ py "**Severity (caregiver-rated):** " ++ str_of_int severity ++ py "/10  " ++ nl
  ++ nl
  ++ py "### What I observed" ++ nl
  ++ (if truthy concern_text then strip concern_text else py "N/A") ++ nl
  ++ nl
  ++ py "### Extra notes" ++ nl
  ++ (if truthy notes then strip notes else py "N/A") ++ nl.

(** ** The two form handlers

    The bodies under [if st.button("Run Quick Check"):] and
    [if st.button("Generate log entry"):]. What a handler does is the
    sequence of its calls to the display library, in order. *)

Definition EMERGENCY_MSG : str :=
  nl
  ++ py "### 🚨 Possible emergency (“red flag”) detected"
  ++ nl
  ++ py "Based on the text you entered, this may need **urgent attention**."
  ++ nl
  ++ nl
  ++ py "**Do now (general guidance):**"
  ++ nl
  ++ py "1. If the person is in immediate danger or you suspect stroke/heart attack/severe breathing trouble: **call emergency services now**."
  ++ nl
  ++ py "2. If unsure, **contact a local nurse line / urgent care / clinician** for guidance."
  ++ nl
  ++ py "3. Stay with the person if it’s safe to do so."
  ++ nl.

Definition NON_URGENT_MSG : str :=
  nl
  ++ py "### ✅ No emergency keywords detected (based on simple rules)"
  ++ nl
  ++ py "This does **not** mean everything is fine—this tool is limited and rule-based."
  ++ nl
  ++ nl
  ++ py "**Helpful next steps (general, non-medical):**"
  ++ nl
  ++ py "- Monitor changes and write down what you observe (time, triggers, what helps)."
  ++ nl
  ++ py "- Consider contacting the person’s clinician if symptoms are new, worsening, or concerning."
  ++ nl
  ++ py "- Focus on comfort, hydration, rest, and safety in the environment (as appropriate)."
  ++ nl.

Inductive st_call : Type :=
| st_warning (body : str)
| st_error (body : str)
| st_success (body : str)
| st_write (body : str)
| st_divider
| st_subheader (body : str)
| st_caption (body : str)
| st_text_area (label value : str) (height : N).

(** [sep.join(l)]. *)
Fixpoint join (sep : str) (l : list str) : str :=
  match l with
  | [] => []
  | x :: rest =>
    match rest with
    | [] => x
    | _ :: _ => x ++ sep ++ join sep rest
    end
  end.

Section Handlers.
Context (db : unicode_db).

(** The Quick Check button. A failure of one of the two functions would
    end the handler; there is none (see [find_red_flags_eq]). *)
Definition run_quick_check (concern_text : str) : option (list st_call) :=
  let text := strip concern_text in
  if negb (truthy text) then
    Some [st_warning (py "Please type something first.")]
  else
    match find_red_flags db text with
    | None => None
    | Some red_flags =>
      let verdict :=
        if truthy_list red_flags then
          [st_error EMERGENCY_MSG;
           st_write (py "**Red-flag matches:**");
           st_write (join (py ", ") red_flags)]
        else [st_success NON_URGENT_MSG] in
      match generate_support_suggestions db text with
      | None => None
      | Some suggestions =>
        Some (verdict
              ++ [st_divider;
                  st_subheader (py "Supportive suggestions (general, non-medical)")]
              ++ map (fun s => st_write (py "- " ++ s)) suggestions
              ++ [st_divider;
                  st_caption (py "Tip: If you want, copy the text into the Care Log tab to keep a record.")])
      end
    end.

(** The Generate log entry button. *)
Definition generate_log_entry (clock : datetime)
    (person_name relationship observed : str) (severity : Z) (notes : str)
    : option (list st_call) :=
  let entry := format_log_entry clock person_name relationship observed severity notes in
  match find_red_flags db (or_else observed []) with
  | None => None
  | Some red_flags =>
    Some (st_text_area (py "Generated note (copy this)") entry 260
          :: (if truthy_list red_flags then
                [st_warning (py "Red-flag keywords were detected in your observation note:");
                 st_write (join (py ", ") red_flags)]
              else []))
  end.

End Handlers.

(** * Part II: the vocabulary of the statements *)

(** The database on Latin-1 (U+0080 to U+00FF); code points above it are
    left unclassified. It serves to run the functions on examples. *)
Definition latin1_db : unicode_db :=
  UnicodeDb
    (fun c => existsb (N.eqb c) [0xAA; 0xB2; 0xB3; 0xB5; 0xB9; 0xBA; 0xBC; 0xBD; 0xBE]
              || in_range 0xC0 0xD6 c || in_range 0xD8 0xF6 c || in_range 0xF8 0xFF c)
    (fun c => if in_range 0xC0 0xD6 c || in_range 0xD8 0xDE c then c + 32 else c).

(** A rule fires on a text; the pattern of a rule compiles. *)
Definition fires (db : unicode_db) (text : str) (rule : str * str) : bool :=
  match re_search db rule.1 text true with
  | Some m => m
  | None => false
  end.

Definition compiles (rule : str * str) : bool :=
  match re_compile rule.1 with Some _ => true | None => false end.

(** ** What a pattern of the fragment matches

    A pattern without repetition denotes finitely many sequences of
    literals and [\b] assertions; matching it is consuming one of them. *)

Inductive item : Type :=
| Ch (p : N)
| Wb.

Fixpoint expand (r : regex) : list (list item) :=
  match r with
  | Empty => [[]]
  | Literal p => [[Ch p]]
  | Boundary => [[Wb]]
  | Seq r1 r2 => flat_map (fun w1 => map (app w1) (expand r2)) (expand r1)
  | Branch r1 r2 => expand r1 ++ expand r2
  end.

(** The literals of a sequence, assertions dropped. *)
Fixpoint chars (w : list item) : str :=
  match w with
  | [] => []
  | Ch p :: w' => p :: chars w'
  | Wb :: w' => chars w'
  end.

Definition after (o : option (option N * str)) (k : option N -> str -> bool) : bool :=
  match o with
  | Some (prev, s) => k prev s
  | None => false
  end.

Section Reading.
Context (db : unicode_db) (ic : bool).

Fixpoint consume (w : list item) (prev : option N) (s : str) : option (option N * str) :=
  match w with
  | [] => Some (prev, s)
  | Ch p :: w' =>
    match s with
    | c :: s' => if lit_match db ic p c then consume w' (Some c) s' else None
    | [] => None
    end
  | Wb :: w' => if at_boundary db prev (head s) then consume w' prev s else None
  end.

(** A sequence can be consumed at some position of the text. *)
Fixpoint occurs (w : list item) (prev : option N) (s : str) : bool :=
  after (consume w prev s) accept
  || match s with
     | [] => false
     | c :: s' => occurs w (Some c) s'
     end.

(** The text starts with the phrase, and contains it, up to
    [lit_match]. *)
Fixpoint prefix_of (w s : str) : bool :=
  match w, s with
  | [], _ => true
  | p :: w', c :: s' => lit_match db ic p c && prefix_of w' s'
  | _ :: _, [] => false
  end.

Fixpoint contains (w s : str) : bool :=
  prefix_of w s
  || match s with
     | [] => false
     | _ :: s' => contains w s'
     end.

End Reading.

(** The phrases a rule looks for. *)
Definition phrases_of (rule : str * str) : list str :=
  match re_compile rule.1 with
  | Some r => map chars (expand r)
  | None => []
  end.

(** ** Whole-word occurrences

    The reading of the specification: a phrase counts when it stands in
    the text, ignoring case, with a word boundary in front of it and one
    behind it. *)

(** The character in front of the position reached after reading [l]. *)
Fixpoint last_or (prev : option N) (l : str) : option N :=
  match l with
  | [] => prev
  | c :: l' => last_or (Some c) l'
  end.

Definition whole_phrase_at (db : unicode_db) (w : str) (prev : option N) (s : str) : bool :=
  prefix_of db true w s
  && at_boundary db prev (head s)
  && at_boundary db (last_or prev (take (length w) s)) (head (drop (length w) s)).

Fixpoint whole_phrase_in (db : unicode_db) (w : str) (prev : option N) (s : str) : bool :=
  whole_phrase_at db w prev s
  || match s with
     | [] => false
     | c :: s' => whole_phrase_in db w (Some c) s'
     end.

(** The sequence of a phrase between two [\b]. *)
Definition bounded (w : str) : list item := Wb :: map Ch w ++ [Wb].

(** ** Variants in the case of ASCII letters *)

Definition same_letter (a b : N) : Prop := ascii_fold a = ascii_fold b.

Definition case_variant (s t : str) : Prop := Forall2 same_letter s t.

(** ** White space at the ends of a string *)

Definition all_space (s : str) : Prop := Forall (fun c => isspace c = true) s.

Definition not_space (o : option N) : Prop :=
  match o with Some c => isspace c = false | None => True end.

(** Exact occurrence of a piece of text in a string. *)
Fixpoint substring (w s : str) : bool :=
  bool_decide (take (length w) s = w)
  || match s with
     | [] => false
     | _ :: s' => substring w s'
     end.

(** [a] comes before [b] in the list. *)
Definition before {A} (a b : A) (l : list A) : Prop :=
  exists l1 l2 l3, l = l1 ++ a :: l2 ++ b :: l3.

(** ** The phrases of the red-flag table *)

Definition BREATHING_PHRASES : list str := [
  py "can't breathe"; py "cannot breathe"; py "trouble breathing";
  py "difficulty breathing"; py "shortness of breath"; py "blue lips";
  py "turning blue"
].

Definition RED_FLAG_PHRASES : list str :=
  BREATHING_PHRASES ++ [
  py "unconscious"; py "not waking"; py "won't wake"; py "passed out"; py "fainted";
  py "seizure"; py "convulsion"; py "fit";
  py "face droop"; py "slurred speech"; py "can't speak"; py "weakness on one side";
  py "one-sided weakness"; py "sudden numbness";
  py "chest pain"; py "pressure in chest"; py "tightness in chest";
  py "heavy bleeding"; py "won't stop bleeding"; py "bleeding won't stop";
  py "head injury"; py "hit his head"; py "hit her head"; py "hit their head";
  py "concussion";
  py "suicide"; py "kill myself"; py "self harm"; py "hurt myself"
].

Definition BREATHING_RULE : str * str :=
  (py "\b(can't breathe|cannot breathe|trouble breathing|difficulty breathing|shortness of breath|blue lips|turning blue)\b", py "Breathing trouble").

Definition CONFUSION_SUGGESTION : str :=
  py "Confusion can have many causes. Consider checking for recent changes (sleep, hydration, stress, new routines). If sudden or severe, contact a clinician.".

Definition FALL_SUGGESTION : str :=
  py "After a fall, watch for pain, dizziness, confusion, or head injury signs. If there’s severe pain, head impact, or worsening symptoms, seek urgent care.".

(** The part of a log entry in front of the observed text, and the part
    behind it. *)
Definition entry_head (clock : datetime) (person_name relationship : str) (severity : Z) : str :=
  py "## Care Log Entry (" ++ strftime_Ymd_HM clock ++ py ")" ++ nl
  ++ nl
  ++ py "**Person:** " ++ or_else person_name (py "N/A") ++ py "  " ++ nl
  ++ py "**Relationship:** " ++ or_else relationship (py "N/A") ++ py "  " ++ nl
  ++ py "**Severity (caregiver-rated):** " ++ str_of_int severity ++ py "/10  " ++ nl
  ++ nl
  ++ py "### What I observed" ++ nl.

Definition entry_tail (notes : str) : str :=
  nl
  ++ nl
  ++ py "### Extra notes" ++ nl
  ++ (if truthy notes then strip notes else py "N/A") ++ nl.

(** ** Rules of the shape [\b(w1|...|wn)\b] *)

#[global] Instance item_eq_dec : EqDecision item.
Proof. solve_decision. Defined.

(** The pattern of the rule compiles to phrases between two [\b]. *)
Definition bounded_rule (rule : str * str) : bool :=
  match re_compile rule.1 with
  | Some r => bool_decide (expand r = map bounded (map chars (expand r)))
  | None => false
  end.

(** The phrase starts with a lower-case ASCII letter and ends with one. *)
Definition letter_ended (w : str) : bool :=
  match head w, last w with
  | Some p, Some q => ascii_lower p && ascii_lower q
  | _, _ => false
  end.

(** The database gives white space no case and no letter or digit class,
    as Unicode does. *)
Definition db_respects_space (db : unicode_db) : Prop :=
  forall c, isspace c = true -> 128 <= c ->
            db_isalnum db c = false /\ db_tolower db c = c.

(** The calls of a handler that announce a verdict. *)
Definition is_error (c : st_call) : bool :=
  match c with st_error _ => true | _ => false end.

Definition is_success (c : st_call) : bool :=
  match c with st_success _ => true | _ => false end.

Definition is_warning (c : st_call) : bool :=
  match c with st_warning _ => true | _ => false end.

(** The two blocks of calls of the Quick Check on a non-blank text. *)
Definition verdict_calls (red_flags : list str) : list st_call :=
  if truthy_list red_flags then
    [st_error EMERGENCY_MSG;
     st_write (py "**Red-flag matches:**");
     st_write (join (py ", ") red_flags)]
  else [st_success NON_URGENT_MSG].

Definition suggestion_calls (suggestions : list str) : list st_call :=
  [st_divider; st_subheader (py "Supportive suggestions (general, non-medical)")]
  ++ map (fun s => st_write (py "- " ++ s)) suggestions
  ++ [st_divider;
      st_caption (py "Tip: If you want, copy the text into the Care Log tab to keep a record.")].

(** ** Containment under ASCII case folding

    The plain reading of "the text contains the phrase": character by
    character, up to the case of ASCII letters only. *)

Fixpoint ascii_prefix_of (w s : str) : bool :=
  match w, s with
  | [], _ => true
  | p :: w', c :: s' => (ascii_fold c =? ascii_fold p) && ascii_prefix_of w' s'
  | _ :: _, [] => false
  end.

Fixpoint ascii_contains (w s : str) : bool :=
  ascii_prefix_of w s
  || match s with
     | [] => false
     | _ :: s' => ascii_contains w s'
     end.

(** A non-ASCII character the matcher takes for an ASCII letter: its lower
    case is an ASCII letter (as for the Kelvin sign), or dotless i or
    long s. *)
Definition taken_for_letter (db : unicode_db) (c : N) : bool :=
  negb (c <? 128)
  && (in_range 97 122 (db_tolower db c)
      || (db_tolower db c =? 0x131) || (db_tolower db c =? 0x17F)).

(** * Part III: lemmas *)

(** ** The order on strings *)

Lemma str_cmp_eq a b : str_cmp a b = Eq -> a = b.
Proof.
  revert b. induction a as [|x a IH]; intros [|y b]; simpl; try congruence.
  destruct (x ?= y) eqn:E; try congruence.
  apply N.compare_eq in E. intros H. f_equal; auto.
Qed.

Lemma str_cmp_refl a : str_cmp a a = Eq.
Proof. induction a as [|x a IH]; simpl; [reflexivity|]. now rewrite N.compare_refl. Qed.

Lemma str_cmp_opp a b : str_cmp b a = CompOpp (str_cmp a b).
Proof.
  revert b. induction a as [|x a IH]; intros [|y b]; simpl; try reflexivity.
  rewrite (N.compare_antisym x y). destruct (x ?= y); simpl; auto.
Qed.

Lemma str_cmp_lt_trans a b c : str_cmp a b = Lt -> str_cmp b c = Lt -> str_cmp a c = Lt.
Proof.
  revert b c. induction a as [|x a IH]; intros [|y b] [|z c]; simpl; try congruence.
  destruct (x ?= y) eqn:Exy; try congruence; destruct (y ?= z) eqn:Eyz; try congruence.
  - apply N.compare_eq in Exy, Eyz. subst. rewrite N.compare_refl. eauto.
  - apply N.compare_eq in Exy. subst. now rewrite Eyz.
  - apply N.compare_eq in Eyz. subst. now rewrite Exy.
  - intros _ _. rewrite N.compare_lt_iff in *. 
    assert (H : x < z) by lia. apply N.compare_lt_iff in H. now rewrite H.
Qed.

#[global] Instance str_le_total : Total str_le.
Proof.
  intros a b. unfold str_le. rewrite (str_cmp_opp a b).
  destruct (str_cmp a b); simpl; [left | left | right]; congruence.
Qed.

Lemma str_le_neq_lt a b : str_le a b -> a <> b -> str_lt a b.
Proof.
  unfold str_le, str_lt. intros Hle Hne.
  destruct (str_cmp a b) eqn:E; try congruence.
  apply str_cmp_eq in E. contradiction.
Qed.

Lemma Sorted_le_NoDup_lt (l : list str) : Sorted str_le l -> NoDup l -> Sorted str_lt l.
Proof.
  induction 1 as [|x l Hs IH Hd]; intros Hnd; [constructor|].
  apply NoDup_cons in Hnd as [Hx Hnd]. constructor; [auto|].
  destruct Hd as [|y l Hxy]; constructor.
  apply str_le_neq_lt; [assumption|]. intros ->. apply Hx. left.
Qed.

(** ** [sorted(set(hits))] *)

Lemma sorted_set_elem (hits : list str) (x : str) : x ∈ sorted (set hits) <-> x ∈ hits.
Proof.
  unfold sorted, set. rewrite merge_sort_Permutation, elem_of_elements.
  apply elem_of_list_to_set.
Qed.

Lemma sorted_set_NoDup (hits : list str) : NoDup (sorted (set hits)).
Proof. unfold sorted. rewrite merge_sort_Permutation. apply NoDup_elements. Qed.

Lemma sorted_set_Sorted (hits : list str) : Sorted str_lt (sorted (set hits)).
Proof.
  apply Sorted_le_NoDup_lt; [|apply sorted_set_NoDup].
  unfold sorted. apply (Sorted_merge_sort str_le).
Qed.

Lemma sorted_set_nil : sorted (set []) = [].
Proof. unfold sorted, set. simpl. now rewrite elements_empty. Qed.

(** ** The loop over a rule table *)

Lemma scan_rules_filter db rules text acc :
  forallb compiles rules = true ->
  scan_rules db rules text acc = Some (acc ++ map snd (List.filter (fires db text) rules)).
Proof.
  revert acc. induction rules as [|[pattern out] rules IH]; intros acc Hc; simpl.
  - now rewrite app_nil_r.
  - simpl in Hc. apply andb_prop in Hc as [Hc1 Hc2].
    unfold compiles in Hc1. simpl in Hc1.
    unfold fires at 1. simpl. unfold re_search in *.
    destruct (re_compile pattern) as [r|]; [|discriminate].
    destruct (search_from db true r None text) eqn:E.
    + rewrite IH by assumption. simpl. now rewrite <- app_assoc.
    + now apply IH.
Qed.

Lemma RED_FLAGS_compile : forallb compiles RED_FLAGS = true.
Proof. vm_compute. reflexivity. Qed.

Lemma SUGGESTION_RULES_compile : forallb compiles SUGGESTION_RULES = true.
Proof. vm_compute. reflexivity. Qed.

Lemma find_red_flags_eq db text :
  find_red_flags db text =
  Some (sorted (set (map snd (List.filter (fires db text) RED_FLAGS)))).
Proof.
  unfold find_red_flags. now rewrite scan_rules_filter by apply RED_FLAGS_compile.
Qed.

Lemma generate_support_suggestions_eq db text :
  generate_support_suggestions db text =
  Some (let suggestions := map snd (List.filter (fires db text) SUGGESTION_RULES) in
        if truthy_list suggestions then suggestions else [FALLBACK]).
Proof.
  unfold generate_support_suggestions.
  rewrite scan_rules_filter by apply SUGGESTION_RULES_compile.
  rewrite app_nil_l. cbv zeta. now destruct (map snd _).
Qed.

Lemma fires_iff db text pattern out :
  fires db text (pattern, out) = true <-> re_search db pattern text true = Some true.
Proof.
  unfold fires. simpl.
  destruct (re_search db pattern text true) as [[]|]; split; congruence.
Qed.

(** What the loop collects: the outputs of the rules that fire. *)
Lemma fired_elem db text rules (x : str) :
  x ∈ map snd (List.filter (fires db text) rules) <->
  exists pattern, (pattern, x) ∈ rules /\ re_search db pattern text true = Some true.
Proof.
  rewrite list_elem_of_In, in_map_iff. split.
  - intros ([pattern out] & Hx & Hin). simpl in Hx. subst out.
    apply filter_In in Hin as [Hin Hf]. exists pattern. split.
    + now apply list_elem_of_In.
    + now apply fires_iff in Hf.
  - intros (pattern & Hin & Hs). exists (pattern, x). split; [reflexivity|].
    apply filter_In. split; [now apply list_elem_of_In|now apply fires_iff].
Qed.

Lemma filter_none {A} (f : A -> bool) (l : list A) :
  (forall x, In x l -> f x = false) -> List.filter f l = [].
Proof.
  induction l as [|x l IH]; intros H; simpl; [reflexivity|].
  rewrite (H x) by now left. apply IH. intros y Hy. apply H. now right.
Qed.

(** Every pattern of a table that compiles gives an answer on every text. *)
Lemma re_search_answers db rules text pattern out :
  forallb compiles rules = true -> (pattern, out) ∈ rules ->
  re_search db pattern text true = Some (fires db text (pattern, out)).
Proof.
  intros Hc Hin. rewrite forallb_forall in Hc. apply list_elem_of_In in Hin.
  specialize (Hc _ Hin). unfold compiles, fires, re_search in *. simpl in *.
  destruct (re_compile pattern); [reflexivity|discriminate].
Qed.

(** ** The matcher and the sequences of a pattern *)

Lemma existsb_flat_map {A B} (f : B -> bool) (g : A -> list B) (l : list A) :
  existsb f (flat_map g l) = existsb (fun a => existsb f (g a)) l.
Proof. induction l as [|a l IH]; simpl; [reflexivity|]. now rewrite existsb_app, IH. Qed.

Lemma existsb_map {A B} (f : B -> bool) (g : A -> B) (l : list A) :
  existsb f (map g l) = existsb (fun a => f (g a)) l.
Proof. induction l as [|a l IH]; simpl; [reflexivity|]. now rewrite IH. Qed.

Lemma existsb_eq {A} (f g : A -> bool) (l : list A) :
  (forall a, f a = g a) -> existsb f l = existsb g l.
Proof. intros H. induction l as [|a l IH]; simpl; [reflexivity|]. now rewrite H, IH. Qed.

Section Semantics.
Context (db : unicode_db) (ic : bool).

Lemma consume_app w1 w2 prev s k :
  after (consume db ic (w1 ++ w2) prev s) k =
  after (consume db ic w1 prev s) (fun prev' s' => after (consume db ic w2 prev' s') k).
Proof.
  revert prev s. induction w1 as [|[p|] w1 IH]; intros prev s; simpl; [reflexivity| |].
  - destruct s as [|c s]; [reflexivity|]. destruct (lit_match db ic p c); auto.
  - destruct (at_boundary db prev (head s)); auto.
Qed.

(** The matcher succeeds exactly when one of the sequences of the
    pattern can be consumed and the continuation accepts what is left. *)
Lemma rmatch_expand r : forall prev s k,
  rmatch db ic r prev s k = existsb (fun w => after (consume db ic w prev s) k) (expand r).
Proof.
  induction r as [|p| |r1 IH1 r2 IH2|r1 IH1 r2 IH2]; intros prev s k; simpl.
  - now rewrite orb_false_r.
  - destruct s as [|c s]; [reflexivity|].
    destruct (lit_match db ic p c); simpl; [now rewrite orb_false_r|reflexivity].
  - destruct (at_boundary db prev (head s)); simpl; [now rewrite orb_false_r|reflexivity].
  - rewrite IH1, existsb_flat_map. apply existsb_eq. intros w1.
    rewrite existsb_map.
    rewrite (existsb_eq _ (fun w2 => after (consume db ic w1 prev s)
               (fun prev' s' => after (consume db ic w2 prev' s') k)))
      by (intros; apply consume_app).
    destruct (consume db ic w1 prev s) as [[prev' s']|]; simpl.
    + apply IH2.
    + clear IH2. induction (expand r2) as [|w2 l IHl]; simpl; auto.
  - now rewrite existsb_app, IH1, IH2.
Qed.

Lemma search_from_expand r prev s :
  search_from db ic r prev s = existsb (fun w => occurs db ic w prev s) (expand r).
Proof.
  revert prev. induction s as [|c s IH]; intros prev; simpl.
  - rewrite rmatch_expand, orb_false_r. apply existsb_eq. intros w. now rewrite orb_false_r.
  - rewrite rmatch_expand, IH. generalize (expand r). intros l.
    induction l as [|w l IHl]; simpl; [reflexivity|].
    rewrite <- IHl.
    destruct (after (consume db ic w prev (c :: s)) accept), (occurs db ic w (Some c) s); simpl;
      rewrite ?orb_true_r; reflexivity.
Qed.

Lemma consume_prefix_of w prev s :
  is_Some (consume db ic w prev s) -> prefix_of db ic (chars w) s = true.
Proof.
  revert prev s. induction w as [|[p|] w IH]; intros prev s; simpl.
  - reflexivity.
  - destruct s as [|c s]; [intros [? ?]; discriminate|].
    destruct (lit_match db ic p c); [simpl; eauto|intros [? ?]; discriminate].
  - destruct (at_boundary db prev (head s)); [eauto|intros [? ?]; discriminate].
Qed.

Lemma occurs_contains w prev s :
  occurs db ic w prev s = true -> contains db ic (chars w) s = true.
Proof.
  revert prev. induction s as [|c s IH]; intros prev; simpl.
  - rewrite !orb_false_r. intros H. apply (consume_prefix_of w prev).
    destruct (consume db ic w prev []); [eauto|discriminate].
  - intros H. apply orb_prop in H as [H|H].
    + apply orb_true_intro. left. apply (consume_prefix_of w prev).
      destruct (consume db ic w prev (c :: s)); [eauto|discriminate].
    + apply orb_true_intro. right. eauto.
Qed.

End Semantics.

Lemma fires_contains db text rule :
  fires db text rule = true ->
  exists w, w ∈ phrases_of rule /\ contains db true w text = true.
Proof.
  unfold fires, phrases_of, re_search. destruct (re_compile rule.1) as [r|]; [|discriminate].
  rewrite search_from_expand. intros H. apply existsb_exists in H as (w & Hin & Hocc).
  exists (chars w). split.
  - apply list_elem_of_In, in_map, Hin.
  - eapply occurs_contains, Hocc.
Qed.

(** ** Whole-word occurrences *)

Lemma consume_phrase db w : forall prev s,
  after (consume db true (map Ch w ++ [Wb]) prev s) accept =
  prefix_of db true w s
  && at_boundary db (last_or prev (take (length w) s)) (head (drop (length w) s)).
Proof.
  induction w as [|p w IH]; intros prev s; simpl.
  - rewrite drop_0. now destruct (at_boundary db prev (head s)).
  - destruct s as [|c s]; [reflexivity|].
    destruct (lit_match db true p c); simpl; [apply IH|reflexivity].
Qed.

Lemma consume_bounded db w prev s :
  after (consume db true (bounded w) prev s) accept = whole_phrase_at db w prev s.
Proof.
  unfold bounded, whole_phrase_at. simpl.
  destruct (at_boundary db prev (head s)) eqn:E.
  - rewrite consume_phrase. now rewrite andb_true_r.
  - simpl. now rewrite andb_false_r.
Qed.

Lemma occurs_bounded db w prev s :
  occurs db true (bounded w) prev s = whole_phrase_in db w prev s.
Proof.
  revert prev. induction s as [|c s IH]; intros prev; cbn [occurs whole_phrase_in];
    rewrite consume_bounded; [reflexivity|now rewrite IH].
Qed.

(** A rule whose pattern is [\b(w1|...|wn)\b] fires exactly on the texts
    with a whole-word occurrence of one of the phrases. *)
Lemma fires_whole_phrase db text rule ws :
  option_map expand (re_compile rule.1) = Some (map bounded ws) ->
  fires db text rule = existsb (fun w => whole_phrase_in db w None text) ws.
Proof.
  unfold fires, re_search. destruct (re_compile rule.1) as [r|]; [|discriminate].
  simpl. intros [= Hex]. rewrite search_from_expand, Hex.
  rewrite (existsb_map (fun w => occurs db true w None text) bounded ws).
  apply existsb_eq. intros w. apply occurs_bounded.
Qed.

(** ** Variants in the case of ASCII letters *)

Ltac split_ranges :=
  repeat match goal with
  | |- context [?x <=? ?y] => destruct (N.leb_spec x y)
  | |- context [?x <? ?y] => destruct (N.ltb_spec x y)
  | |- context [?x =? ?y] => destruct (N.eqb_spec x y)
  end; simpl; try reflexivity; try congruence; try lia.

Lemma ascii_upper_range a : ascii_upper a = true <-> 65 <= a <= 90.
Proof. unfold ascii_upper, in_range. rewrite andb_true_iff, !N.leb_le. tauto. Qed.

Lemma same_letter_cases a b :
  same_letter a b ->
  a = b \/ (65 <= a <= 90 /\ b = a + 32) \/ (65 <= b <= 90 /\ a = b + 32).
Proof.
  unfold same_letter, ascii_fold.
  destruct (ascii_upper a) eqn:Ea, (ascii_upper b) eqn:Eb; intros H.
  - left. lia.
  - right. left. apply ascii_upper_range in Ea. split; [assumption|now symmetry].
  - right. right. apply ascii_upper_range in Eb. split; assumption.
  - now left.
Qed.

Lemma tolower_upper db a : 65 <= a <= 90 -> tolower db a = a + 32 /\ tolower db (a + 32) = a + 32.
Proof. intros H. unfold tolower, ascii_fold, ascii_upper, in_range. split; split_ranges. Qed.

Lemma is_word_upper db a : 65 <= a <= 90 -> is_word db a = true /\ is_word db (a + 32) = true.
Proof.
  intros H. unfold is_word, ascii_letter, ascii_upper, ascii_lower, in_range.
  split; split_ranges.
Qed.

Lemma tolower_variant db a b : same_letter a b -> tolower db a = tolower db b.
Proof.
  intros H. destruct (same_letter_cases a b H) as [->|[[Ha ->]|[Hb ->]]]; [reflexivity| |].
  - destruct (tolower_upper db a Ha). congruence.
  - destruct (tolower_upper db b Hb). congruence.
Qed.

Lemma is_word_variant db a b : same_letter a b -> is_word db a = is_word db b.
Proof.
  intros H. destruct (same_letter_cases a b H) as [->|[[Ha ->]|[Hb ->]]]; [reflexivity| |].
  - destruct (is_word_upper db a Ha). congruence.
  - destruct (is_word_upper db b Hb). congruence.
Qed.

Lemma not_letter_neq p a : ascii_letter p = false -> 65 <= a <= 90 -> a <> p /\ a + 32 <> p.
Proof.
  unfold ascii_letter, ascii_upper, ascii_lower, in_range. intros Hp Ha.
  apply orb_false_iff in Hp as [Hu Hl].
  apply andb_false_iff in Hu, Hl. rewrite !N.leb_gt in Hu, Hl. lia.
Qed.

Lemma lit_match_variant db p a b :
  same_letter a b -> lit_match db true p a = lit_match db true p b.
Proof.
  intros H. unfold lit_match. simpl andb.
  destruct (ascii_letter p) eqn:Ep.
  - now rewrite (tolower_variant db a b H).
  - destruct (same_letter_cases a b H) as [->|[[Ha ->]|[Hb ->]]]; [reflexivity| |].
    + destruct (not_letter_neq p a Ep Ha) as [H1 H2].
      apply N.eqb_neq in H1, H2. congruence.
    + destruct (not_letter_neq p b Ep Hb) as [H1 H2].
      apply N.eqb_neq in H1, H2. congruence.
Qed.

Lemma at_boundary_variant db p p' (s s' : str) :
  option_Forall2 same_letter p p' -> case_variant s s' ->
  at_boundary db p (head s) = at_boundary db p' (head s').
Proof.
  intros Hp Hs. unfold at_boundary. f_equal.
  - destruct Hp; simpl; [now apply is_word_variant|reflexivity].
  - destruct Hs; simpl; [reflexivity|now apply is_word_variant].
Qed.

Lemma rmatch_variant db r : forall prev prev' s s' k k',
  option_Forall2 same_letter prev prev' -> case_variant s s' ->
  (forall p p' t t', option_Forall2 same_letter p p' -> case_variant t t' -> k p t = k' p' t') ->
  rmatch db true r prev s k = rmatch db true r prev' s' k'.
Proof.
  induction r as [|p| |r1 IH1 r2 IH2|r1 IH1 r2 IH2]; intros prev prev' s s' k k' Hp Hs Hk; simpl.
  - now apply Hk.
  - destruct Hs as [|a b s s' Hab Hs]; [reflexivity|].
    rewrite (lit_match_variant db p a b Hab). f_equal.
    apply Hk; [now constructor|assumption].
  - rewrite (at_boundary_variant db prev prev' s s' Hp Hs). f_equal. now apply Hk.
  - apply IH1; auto.
  - f_equal; auto.
Qed.

Lemma search_from_variant db r s s' :
  case_variant s s' -> forall prev prev', option_Forall2 same_letter prev prev' ->
  search_from db true r prev s = search_from db true r prev' s'.
Proof.
  induction 1 as [|a b s s' Hab Hs IH]; intros prev prev' Hp; simpl.
  - f_equal. apply rmatch_variant; [assumption|constructor|reflexivity].
  - f_equal.
    + apply rmatch_variant; [assumption|now constructor|reflexivity].
    + apply IH. now constructor.
Qed.

Lemma fires_variant db s s' rule : case_variant s s' -> fires db s rule = fires db s' rule.
Proof.
  intros H. unfold fires, re_search. destruct (re_compile rule.1); [|reflexivity].
  apply search_from_variant; [assumption|constructor].
Qed.

(** ** [strip] *)

Lemma lstrip_spec s :
  exists l, s = l ++ lstrip s /\ all_space l /\ not_space (head (lstrip s)).
Proof.
  induction s as [|c s (l & Hs & Hl & Hh)]; simpl.
  - exists []. repeat split. constructor.
  - destruct (isspace c) eqn:E.
    + exists (c :: l). repeat split; [simpl; now f_equal|now constructor|assumption].
    + exists []. repeat split; [constructor|assumption].
Qed.

Lemma rstrip_spec s :
  exists r, s = rstrip s ++ r /\ all_space r /\ not_space (last (rstrip s)).
Proof.
  unfold rstrip. destruct (lstrip_spec (reverse s)) as (l & Hs & Hl & Hh).
  exists (reverse l). repeat split.
  - rewrite <- reverse_app, <- Hs. now rewrite reverse_involutive.
  - unfold all_space. now rewrite Forall_reverse.
  - now rewrite last_reverse.
Qed.

(** [strip] removes a run of white space at each end and nothing else:
    what is left is a contiguous piece of the argument, and it neither
    starts nor ends with white space. *)
Lemma strip_spec s :
  exists l r, s = l ++ strip s ++ r /\ all_space l /\ all_space r
              /\ not_space (head (strip s)) /\ not_space (last (strip s)).
Proof.
  unfold strip. destruct (lstrip_spec s) as (l & Hs & Hl & Hh).
  destruct (rstrip_spec (lstrip s)) as (r & Ht & Hr & Hlast).
  exists l, r. repeat split; try assumption.
  - now rewrite <- Ht.
  - destruct (rstrip (lstrip s)) as [|c u] eqn:E; [exact I|].
    rewrite Ht in Hh. exact Hh.
Qed.

(** ** The two tables *)

Lemma RED_FLAGS_phrases : flat_map phrases_of RED_FLAGS = RED_FLAG_PHRASES.
Proof. vm_compute. reflexivity. Qed.

Lemma BREATHING_RULE_expand :
  option_map expand (re_compile BREATHING_RULE.1) = Some (map bounded BREATHING_PHRASES).
Proof. vm_compute. reflexivity. Qed.

Lemma only_rule_check (rules : list (str * str)) (rule : str * str) :
  forallb (fun r => match str_cmp r.2 rule.2 with
                    | Eq => match str_cmp r.1 rule.1 with
                            | Eq => true
                            | _ => false
                            end
                    | _ => true
                    end) rules = true ->
  forall pattern, (pattern, rule.2) ∈ rules -> pattern = rule.1.
Proof.
  intros Hall pattern H. rewrite forallb_forall in Hall.
  apply list_elem_of_In in H. specialize (Hall _ H). simpl in Hall.
  rewrite str_cmp_refl in Hall.
  destruct (str_cmp pattern rule.1) eqn:E; try discriminate.
  now apply str_cmp_eq.
Qed.

Lemma BREATHING_RULE_only pattern :
  (pattern, py "Breathing trouble") ∈ RED_FLAGS -> pattern = BREATHING_RULE.1.
Proof. apply (only_rule_check RED_FLAGS BREATHING_RULE). vm_compute. reflexivity. Qed.

Lemma BREATHING_RULE_in : BREATHING_RULE ∈ RED_FLAGS.
Proof. unfold RED_FLAGS, BREATHING_RULE. left. Qed.

(** No phrase of the table in the text: no rule fires. *)
Lemma no_phrase_no_fire db text rule :
  (forall w, w ∈ RED_FLAG_PHRASES -> contains db true w text = false) ->
  rule ∈ RED_FLAGS -> fires db text rule = false.
Proof.
  intros Hno Hin. destruct (fires db text rule) eqn:E; [|reflexivity].
  apply fires_contains in E as (w & Hw & Hc).
  rewrite Hno in Hc; [discriminate|].
  rewrite <- RED_FLAGS_phrases. apply list_elem_of_In, in_flat_map.
  exists rule. split; now apply list_elem_of_In.
Qed.

Lemma fell_and_confused_eval db :
  generate_support_suggestions db (py "fell and is confused")
  = Some [CONFUSION_SUGGESTION; FALL_SUGGESTION].
Proof. vm_compute. reflexivity. Qed.

Lemma suggestions_differ : FALL_SUGGESTION <> CONFUSION_SUGGESTION.
Proof. vm_compute. discriminate. Qed.

Lemma cons_eq_inv {A} (x y : A) (l l' : list A) : x :: l = y :: l' -> x = y /\ l = l'.
Proof. intros H. injection H as H1 H2. now split. Qed.

(** Checking by evaluation that no rule of a table fires, and that no
    phrase of a list is in a text. *)
Lemma no_rule_fires_check db (rules : list (str * str)) text :
  forallb (fun r => match re_search db r.1 text true with
                    | Some false => true
                    | _ => false
                    end) rules = true ->
  forall pattern (out : str),
    (pattern, out) ∈ rules -> re_search db pattern text true = Some false.
Proof.
  intros Hc pattern out Hin. rewrite forallb_forall in Hc.
  apply list_elem_of_In in Hin. specialize (Hc _ Hin). simpl in Hc.
  destruct (re_search db pattern text true) as [[]|]; congruence.
Qed.

Lemma no_phrase_check db (ws : list str) text :
  forallb (fun w => negb (contains db true w text)) ws = true ->
  forall w, w ∈ ws -> contains db true w text = false.
Proof.
  intros Hc w Hin. rewrite forallb_forall in Hc.
  apply list_elem_of_In in Hin. specialize (Hc _ Hin).
  now apply negb_true_iff in Hc.
Qed.

Lemma not_an_output_check (rules : list (str * str)) (x : str) :
  forallb (fun r => match str_cmp r.2 x with
                    | Eq => false
                    | _ => true
                    end) rules = true ->
  forall pattern, (pattern, x) ∉ rules.
Proof.
  intros Hall pattern H. rewrite forallb_forall in Hall.
  apply list_elem_of_In in H. specialize (Hall _ H). simpl in Hall.
  now rewrite str_cmp_refl in Hall.
Qed.

Lemma FALLBACK_not_a_rule pattern : (pattern, FALLBACK) ∉ SUGGESTION_RULES.
Proof. apply not_an_output_check. vm_compute. reflexivity. Qed.

Lemma SUGGESTION_RULES_length : length SUGGESTION_RULES = 7%nat.
Proof. reflexivity. Qed.

Lemma format_log_entry_parts clock person_name relationship concern_text severity notes :
  format_log_entry clock person_name relationship concern_text severity notes
  = entry_head clock person_name relationship severity
    ++ (if truthy concern_text then strip concern_text else py "N/A")
    ++ entry_tail notes.
Proof.
  unfold format_log_entry, entry_head, entry_tail. cbv zeta.
  rewrite <- !app_assoc. reflexivity.
Qed.

Example strip_keeps_inner_space :
  strip (py "  a  b" ++ nl ++ py " c  " ++ nl) = py "a  b" ++ nl ++ py " c".
Proof. vm_compute. reflexivity. Qed.

Example red_flags_upper_case :
  find_red_flags latin1_db (py "CHEST PAIN") = Some [py "Chest pain/pressure"].
Proof. vm_compute. reflexivity. Qed.

Lemma whole_phrase_at_embedded db w prev s :
  is_word_opt db (last_or prev (take (length w) s)) = true ->
  is_word_opt db (head (drop (length w) s)) = true ->
  whole_phrase_at db w prev s = false.
Proof.
  intros H1 H2. unfold whole_phrase_at, at_boundary at 2. rewrite H1, H2.
  apply andb_false_r.
Qed.

(** ** The matcher and ASCII case folding *)

Lemma ascii_letter_fold_range p : ascii_letter p = true -> 97 <= ascii_fold p <= 122.
Proof.
  unfold ascii_letter, ascii_fold, ascii_upper, ascii_lower, in_range.
  destruct (N.leb_spec 65 p), (N.leb_spec p 90); simpl;
    rewrite ?andb_true_iff, ?N.leb_le; intros; lia.
Qed.

Lemma ascii_fold_below c : c < 128 -> ascii_fold c < 160.
Proof.
  intros H. unfold ascii_fold, ascii_upper, in_range.
  destruct (N.leb_spec 65 c), (N.leb_spec c 90); simpl; lia.
Qed.

Lemma ascii_fold_above c : 128 <= c -> ascii_fold c = c.
Proof.
  intros H. unfold ascii_fold, ascii_upper, in_range.
  destruct (N.leb_spec 65 c), (N.leb_spec c 90); simpl; try reflexivity; lia.
Qed.

Lemma fixes_not_below lo x : x < 160 -> existsb (N.eqb x) (ignorecase_fixes lo) = false.
Proof.
  intros H. unfold ignorecase_fixes.
  destruct (lo =? 105); [|destruct (lo =? 115)]; simpl; try reflexivity;
    rewrite orb_false_r; apply N.eqb_neq; lia.
Qed.

Lemma fixes_not_other lo x : x <> 0x131 -> x <> 0x17F ->
  existsb (N.eqb x) (ignorecase_fixes lo) = false.
Proof.
  intros H1 H2. unfold ignorecase_fixes.
  destruct (lo =? 105); [|destruct (lo =? 115)]; simpl; try reflexivity;
    rewrite orb_false_r; now apply N.eqb_neq.
Qed.

Lemma not_letter_fold p c :
  ascii_letter p = false -> (c =? p) = (ascii_fold c =? ascii_fold p).
Proof.
  intros Hp. unfold ascii_letter in Hp. apply orb_false_iff in Hp as [Hu Hl].
  unfold ascii_fold at 2. rewrite Hu.
  unfold ascii_fold. destruct (ascii_upper c) eqn:Ec; [|reflexivity].
  apply ascii_upper_range in Ec.
  unfold ascii_upper, ascii_lower, in_range in Hu, Hl.
  apply andb_false_iff in Hu, Hl. rewrite !N.leb_gt in Hu, Hl.
  destruct (N.eqb_spec c p), (N.eqb_spec (c + 32) p); try reflexivity; lia.
Qed.

(** On a character that is not taken for a letter, the matcher compares
    as ASCII case folding does. *)
Lemma lit_match_plain db p c :
  taken_for_letter db c = false ->
  lit_match db true p c = (ascii_fold c =? ascii_fold p).
Proof.
  intros Hc. unfold lit_match. simpl andb.
  destruct (ascii_letter p) eqn:Ep; [|now apply not_letter_fold].
  pose proof (ascii_letter_fold_range p Ep) as Hr. cbv zeta.
  unfold tolower, taken_for_letter in *.
  destruct (N.ltb_spec c 128) as [Hlt|Hge]; simpl negb in Hc.
  - rewrite fixes_not_below by now apply ascii_fold_below. apply orb_false_r.
  - rewrite andb_true_l in Hc. apply orb_false_iff in Hc as [Hc H3].
    apply orb_false_iff in Hc as [H1 H2].
    apply N.eqb_neq in H2, H3.
    unfold in_range in H1. apply andb_false_iff in H1. rewrite !N.leb_gt in H1.
    rewrite fixes_not_other by assumption. rewrite orb_false_r.
    rewrite (ascii_fold_above c Hge).
    destruct (N.eqb_spec (db_tolower db c) (ascii_fold p)),
             (N.eqb_spec c (ascii_fold p)); try reflexivity; lia.
Qed.

Lemma prefix_of_plain db w : forall s,
  Forall (fun c => taken_for_letter db c = false) s ->
  prefix_of db true w s = ascii_prefix_of w s.
Proof.
  induction w as [|p w IH]; intros s Hs; simpl; [reflexivity|].
  destruct Hs as [|c s Hc Hs]; [reflexivity|].
  now rewrite (lit_match_plain db p c Hc), IH.
Qed.

Lemma contains_plain db w s :
  Forall (fun c => taken_for_letter db c = false) s ->
  contains db true w s = ascii_contains w s.
Proof.
  induction 1 as [|c s Hc Hs IH]; simpl.
  - now rewrite prefix_of_plain by constructor.
  - rewrite IH. f_equal. apply prefix_of_plain. now constructor.
Qed.

Lemma ascii_no_phrase_check (ws : list str) text :
  forallb (fun w => negb (ascii_contains w text)) ws = true ->
  forall w, w ∈ ws -> ascii_contains w text = false.
Proof.
  intros Hc w Hin. rewrite forallb_forall in Hc.
  apply list_elem_of_In in Hin. specialize (Hc _ Hin).
  now apply negb_true_iff in Hc.
Qed.

Lemma plain_text_check db (text : str) :
  forallb (fun c => negb (taken_for_letter db c)) text = true ->
  forall c, c ∈ text -> taken_for_letter db c = false.
Proof.
  intros Hc c Hin. rewrite forallb_forall in Hc.
  apply list_elem_of_In in Hin. specialize (Hc _ Hin).
  now apply negb_true_iff in Hc.
Qed.

(** * Part IV: the claims of the specification *)

(** C1, as amended. For the input "fell and is confused",
    [generate_support_suggestions] returns exactly the confusion-related
    and the fall-related suggestion, in the order of the rule table; the
    confusion rule is declared before the fall rule, so the confusion
    suggestion comes first. *)
Theorem fell_and_confused_in_table_order db :
  generate_support_suggestions db (py "fell and is confused")
  = Some [CONFUSION_SUGGESTION; FALL_SUGGESTION]
  /\ before (py "\b(confused|confusion|disoriented)\b", CONFUSION_SUGGESTION)
            (py "\b(fall|fell|slipped)\b", FALL_SUGGESTION)
            SUGGESTION_RULES.
Proof.
  split; [apply fell_and_confused_eval|].
  exists [], (take 1 (drop 1 SUGGESTION_RULES)), (drop 3 SUGGESTION_RULES).
  vm_compute. reflexivity.
Qed.

(** C1, as stated, fails: on "fell and is confused" the fall-related
    suggestion does not come before the confusion-related one, whatever
    the Unicode database. *)
Lemma fall_not_before_confusion :
  ~ (exists db l,
       generate_support_suggestions db (py "fell and is confused") = Some l
       /\ before FALL_SUGGESTION CONFUSION_SUGGESTION l).
Proof.
  intros (db & l & H & l1 & l2 & l3 & Hl).
  rewrite fell_and_confused_eval in H. apply Some_inj in H. subst l.
  destruct l1 as [|x l1]; simpl in Hl.
  - apply cons_eq_inv in Hl as [Hl _]. exact (suggestions_differ (eq_sym Hl)).
  - apply cons_eq_inv in Hl as [_ Hl]. destruct l1 as [|y l1]; simpl in Hl.
    + apply cons_eq_inv in Hl as [_ Hl]. destruct l2; discriminate Hl.
    + apply cons_eq_inv in Hl as [_ Hl]. destruct l1; discriminate Hl.
Qed.

(** C3. [find_red_flags] applied to "sudden chest pain and trouble
    breathing" returns exactly the two labels "Breathing trouble" and
    "Chest pain/pressure", in ascending order. *)
Theorem chest_pain_and_breathing db :
  find_red_flags db (py "sudden chest pain and trouble breathing")
  = Some [py "Breathing trouble"; py "Chest pain/pressure"]
  /\ str_lt (py "Breathing trouble") (py "Chest pain/pressure").
Proof. split; vm_compute; reflexivity. Qed.

(** C4. For every input, the result of [find_red_flags] has no duplicate
    label and is sorted in strictly ascending order, and a label is in it
    exactly when it is the label of a red-flag rule whose pattern matched
    the input. *)
Theorem find_red_flags_sorted_set db text :
  exists labels,
    find_red_flags db text = Some labels
    /\ NoDup labels
    /\ Sorted str_lt labels
    /\ forall label,
         label ∈ labels <->
         exists pattern, (pattern, label) ∈ RED_FLAGS
                         /\ re_search db pattern text true = Some true.
Proof.
  eexists. split; [apply find_red_flags_eq|].
  split; [apply sorted_set_NoDup|]. split; [apply sorted_set_Sorted|].
  intros label. rewrite sorted_set_elem. apply fired_elem.
Qed.

(** C5, as amended. [find_red_flags] is total: it returns a list on every
    input, and the list is empty on every input, the empty string and
    non-ASCII text included, that contains none of the red-flag phrases
    when characters are compared as the matcher compares them (the case of
    ASCII letters, the lower case of a non-ASCII character, and dotless i
    and long s taken for i and s). On an input none of whose characters
    is a non-ASCII character taken for an ASCII letter in that way,
    containment under ASCII case folding decides. *)
Theorem find_red_flags_total db :
  (forall text, exists labels, find_red_flags db text = Some labels)
  /\ find_red_flags db [] = Some []
  /\ (forall text,
        (forall w, w ∈ RED_FLAG_PHRASES -> contains db true w text = false) ->
        find_red_flags db text = Some [])
  /\ (forall text,
        (forall c, c ∈ text -> taken_for_letter db c = false) ->
        (forall w, w ∈ RED_FLAG_PHRASES -> ascii_contains w text = false) ->
        find_red_flags db text = Some []).
Proof.
  assert (Hgen : forall text,
            (forall w, w ∈ RED_FLAG_PHRASES -> contains db true w text = false) ->
            find_red_flags db text = Some []).
  { intros text Hno. rewrite find_red_flags_eq.
    rewrite filter_none; [simpl; now rewrite sorted_set_nil|].
    intros rule Hin. apply no_phrase_no_fire; [assumption|now apply list_elem_of_In]. }
  split; [|split; [|split]].
  - intros text. eexists. apply find_red_flags_eq.
  - vm_compute. reflexivity.
  - exact Hgen.
  - intros text Hplain Hno. apply Hgen. intros w Hw.
    rewrite contains_plain; [now apply Hno|].
    apply Forall_forall. exact Hplain.
Qed.

(** An instance on non-ASCII text, with the Latin-1 database. *)
Lemma find_red_flags_total_witness :
  (forall w, w ∈ RED_FLAG_PHRASES ->
             contains latin1_db true w (py "señora está tranquila, sin fiebre") = false)
  /\ (forall c, c ∈ py "señora está tranquila, sin fiebre" ->
                taken_for_letter latin1_db c = false)
  /\ (forall w, w ∈ RED_FLAG_PHRASES ->
                ascii_contains w (py "señora está tranquila, sin fiebre") = false)
  /\ find_red_flags latin1_db (py "señora está tranquila, sin fiebre") = Some [].
Proof.
  assert (H : forall w, w ∈ RED_FLAG_PHRASES ->
              contains latin1_db true w (py "señora está tranquila, sin fiebre") = false).
  { apply no_phrase_check. vm_compute. reflexivity. }
  assert (Hp : forall c, c ∈ py "señora está tranquila, sin fiebre" ->
               taken_for_letter latin1_db c = false).
  { apply plain_text_check. vm_compute. reflexivity. }
  assert (Ha : forall w, w ∈ RED_FLAG_PHRASES ->
               ascii_contains w (py "señora está tranquila, sin fiebre") = false).
  { apply ascii_no_phrase_check. vm_compute. reflexivity. }
  split; [exact H|]. split; [exact Hp|]. split; [exact Ha|].
  apply (proj2 (proj2 (proj2 (find_red_flags_total latin1_db)))); assumption.
Defined.

(** C5, as stated, fails on non-ASCII text: "fıt", written with a dotless
    i (U+0131), contains none of the red-flag phrases under ASCII case
    folding, and [find_red_flags] returns the label "Seizure" for it,
    because under IGNORECASE the literal [i] also matches the dotless
    i. *)
Lemma dotless_i_is_taken_for_i :
  (forall w, w ∈ RED_FLAG_PHRASES -> ascii_contains w (py "fıt") = false)
  /\ py "fıt" = [102; 0x131; 116]
  /\ find_red_flags latin1_db (py "fıt") = Some [py "Seizure"].
Proof.
  split; [|split].
  - apply ascii_no_phrase_check. vm_compute. reflexivity.
  - vm_compute. reflexivity.
  - vm_compute. reflexivity.
Qed.

(** C2, as amended. When the name, the relationship, the observed text
    and the notes are each empty and the severity is 5, the rendered
    block shows "N/A" for the name, the relationship, the observed text
    and the notes, and "5/10" for the severity. *)
Theorem empty_fields_render_placeholder clock :
  format_log_entry clock [] [] [] 5 []
  = py "## Care Log Entry (" ++ strftime_Ymd_HM clock ++ py ")" ++ nl
    ++ nl
    ++ py "**Person:** N/A  " ++ nl
    ++ py "**Relationship:** N/A  " ++ nl
    ++ py "**Severity (caregiver-rated):** 5/10  " ++ nl
    ++ nl
    ++ py "### What I observed" ++ nl
    ++ py "N/A" ++ nl
    ++ nl
    ++ py "### Extra notes" ++ nl
    ++ py "N/A" ++ nl.
Proof.
  unfold format_log_entry. cbv zeta.
  generalize (strftime_Ymd_HM clock). intros now.
  vm_compute. reflexivity.
Qed.

(** C2, as stated, fails on white-space-only fields: with a single space
    for the name, the relationship, the observed text and the notes, the
    rendered block contains no "N/A" at all (it still shows "5/10"). *)
Lemma blank_fields_render_no_placeholder :
  let entry := format_log_entry (Datetime 2024 3 5 9 7) (py " ") (py " ") (py " ") 5 (py " ") in
  all_space (py " ")
  /\ substring (py "N/A") entry = false
  /\ substring (py "5/10") entry = true.
Proof.
  cbv zeta. split; [|split].
  - repeat constructor.
  - vm_compute. reflexivity.
  - vm_compute. reflexivity.
Qed.

(** C6. On every input that no suggestion rule matches,
    [generate_support_suggestions] returns a list of exactly one element,
    the fallback string, character for character. *)
Theorem fallback_when_no_rule_matches db text :
  (forall pattern suggestion,
     (pattern, suggestion) ∈ SUGGESTION_RULES ->
     re_search db pattern text true = Some false) ->
  generate_support_suggestions db text
  = Some [py "Consider logging what you observe (when it started, what changed, what helps). If symptoms worsen or feel concerning, contact a clinician."].
Proof.
  intros Hno. rewrite generate_support_suggestions_eq.
  rewrite filter_none; [reflexivity|].
  intros [pattern out] Hin. apply list_elem_of_In in Hin.
  specialize (Hno _ _ Hin). unfold fires. simpl. now rewrite Hno.
Qed.

(** An instance: a text without any keyword of the suggestion table. *)
Lemma fallback_when_no_rule_matches_witness :
  generate_support_suggestions latin1_db (py "she is resting comfortably today")
  = Some [py "Consider logging what you observe (when it started, what changed, what helps). If symptoms worsen or feel concerning, contact a clinician."].
Proof.
  apply (fallback_when_no_rule_matches latin1_db (py "she is resting comfortably today")).
  apply no_rule_fires_check. vm_compute. reflexivity.
Defined.

(** C7. Matching ignores the case of letters: two inputs that differ only
    in the case of ASCII letters (such as "CHEST PAIN" and "chest pain")
    get the same result from [find_red_flags], and the same result from
    [generate_support_suggestions]. *)
Theorem case_insensitive db s t :
  case_variant s t ->
  find_red_flags db s = find_red_flags db t
  /\ generate_support_suggestions db s = generate_support_suggestions db t.
Proof.
  intros H. rewrite !find_red_flags_eq, !generate_support_suggestions_eq.
  rewrite (filter_ext (fires db s) (fires db t)) by (intros; now apply fires_variant).
  rewrite (filter_ext (fires db s) (fires db t) (fun r => fires_variant db s t r H) SUGGESTION_RULES).
  split; reflexivity.
Qed.

(** An instance: the two spellings the specification names. *)
Lemma case_insensitive_witness :
  case_variant (py "CHEST PAIN") (py "chest pain")
  /\ find_red_flags latin1_db (py "CHEST PAIN") = find_red_flags latin1_db (py "chest pain")
  /\ generate_support_suggestions latin1_db (py "CHEST PAIN")
     = generate_support_suggestions latin1_db (py "chest pain").
Proof.
  assert (H : case_variant (py "CHEST PAIN") (py "chest pain")).
  { vm_compute. repeat constructor. }
  split; [exact H|].
  exact (case_insensitive latin1_db _ _ H).
Defined.

(** C8. Matching respects word boundaries. The label "Breathing trouble"
    is returned exactly when one of the breathing phrases stands in the
    text with a word boundary on each side; a phrase that runs on into a
    longer word does not count: "he breathed", "shortness of breathed"
    and "cannot breathed" give no label, "shortness of breath" does. *)
Theorem breathing_respects_word_boundaries db :
  (forall text,
     exists labels,
       find_red_flags db text = Some labels
       /\ (py "Breathing trouble" ∈ labels <->
           exists w, w ∈ BREATHING_PHRASES /\ whole_phrase_in db w None text = true))
  /\ find_red_flags db (py "he breathed") = Some []
  /\ find_red_flags db (py "shortness of breathed") = Some []
  /\ find_red_flags db (py "cannot breathed") = Some []
  /\ find_red_flags db (py "shortness of breath") = Some [py "Breathing trouble"].
Proof.
  split; [|repeat split; vm_compute; reflexivity].
  intros text. eexists. split; [apply find_red_flags_eq|].
  rewrite sorted_set_elem, fired_elem. split.
  - intros (pattern & Hin & Hs). apply BREATHING_RULE_only in Hin. subst pattern.
    apply (fires_iff db text _ (py "Breathing trouble")) in Hs.
    rewrite (fires_whole_phrase db text _ BREATHING_PHRASES) in Hs
      by exact BREATHING_RULE_expand.
    apply existsb_exists in Hs as (w & Hw & Hocc).
    exists w. split; [now apply list_elem_of_In|assumption].
  - intros (w & Hw & Hocc). exists BREATHING_RULE.1. split; [exact BREATHING_RULE_in|].
    apply (fires_iff db text _ (py "Breathing trouble")).
    rewrite (fires_whole_phrase db text _ BREATHING_PHRASES)
      by exact BREATHING_RULE_expand.
    apply existsb_exists. exists w. split; [now apply list_elem_of_In|assumption].
Qed.




(** C10. On every input [generate_support_suggestions] returns a list of
    at least one and at most seven elements (one per rule), and the
    fallback string is in it exactly when no rule matched. *)
Theorem suggestions_bounds db text :
  exists suggestions,
    generate_support_suggestions db text = Some suggestions
    /\ (1 <= length suggestions <= 7)%nat
    /\ (FALLBACK ∈ suggestions <->
        forall pattern suggestion,
          (pattern, suggestion) ∈ SUGGESTION_RULES ->
          re_search db pattern text true = Some false).
Proof.
  eexists. split; [apply generate_support_suggestions_eq|]. cbv zeta.
  pose proof (fired_elem db text SUGGESTION_RULES) as Hel.
  assert (Hlen : (length (map snd (List.filter (fires db text) SUGGESTION_RULES)) <= 7)%nat).
  { rewrite length_map, <- SUGGESTION_RULES_length. apply filter_length_le. }
  destruct (map snd (List.filter (fires db text) SUGGESTION_RULES)) as [|x l] eqn:E; simpl.
  - split; [lia|]. split; [|intros _; left].
    intros _ pattern suggestion Hin.
    rewrite (re_search_answers db SUGGESTION_RULES text pattern suggestion)
      by (exact SUGGESTION_RULES_compile || assumption).
    f_equal. destruct (fires db text (pattern, suggestion)) eqn:Hf; [|reflexivity].
    exfalso. apply fires_iff in Hf.
    assert (Hx : suggestion ∈ @nil str) by (apply Hel; eauto).
    inversion Hx.
  - simpl in Hlen. split; [lia|]. split.
    + intros Hfb. apply Hel in Hfb as (pattern & Hin & _).
      exfalso. exact (FALLBACK_not_a_rule pattern Hin).
    + intros Hno. exfalso.
      assert (Hx : x ∈ x :: l) by left.
      apply Hel in Hx as (pattern & Hin & Hs).
      rewrite (Hno _ _ Hin) in Hs. discriminate Hs.
Qed.

(** * Part V: further properties of the code *)

(** ** White space and the matcher *)

Lemma isspace_cases c :
  isspace c = true ->
  9 <= c <= 13 \/ 28 <= c <= 32 \/ c = 0x85 \/ c = 0xA0 \/ c = 0x1680
  \/ 0x2000 <= c <= 0x200A \/ c = 0x2028 \/ c = 0x2029 \/ c = 0x202F
  \/ c = 0x205F \/ c = 0x3000.
Proof.
  unfold isspace, in_range.
  rewrite !orb_true_iff, !andb_true_iff, !N.leb_le, !N.eqb_eq. lia.
Qed.

Lemma in_range_false lo hi c : c < lo \/ hi < c -> in_range lo hi c = false.
Proof.
  intros H. unfold in_range. apply andb_false_iff. rewrite !N.leb_gt. lia.
Qed.

Lemma ascii_lower_range p : ascii_lower p = true -> 97 <= p <= 122.
Proof. unfold ascii_lower, in_range. rewrite andb_true_iff, !N.leb_le. tauto. Qed.

Section Space.
Context (db : unicode_db) (Hdb : db_respects_space db).

Lemma space_not_word c : isspace c = true -> is_word db c = false.
Proof.
  intros Hc. pose proof (isspace_cases c Hc) as Hr. unfold is_word.
  destruct (N.ltb_spec c 128) as [Hlt|Hge].
  - unfold ascii_letter, ascii_upper, ascii_lower, ascii_digit.
    rewrite !in_range_false by lia.
    destruct (N.eqb_spec c 95); [lia|reflexivity].
  - now apply Hdb.
Qed.

Lemma space_tolower c : isspace c = true -> tolower db c = c.
Proof.
  intros Hc. pose proof (isspace_cases c Hc) as Hr. unfold tolower.
  destruct (N.ltb_spec c 128) as [Hlt|Hge].
  - unfold ascii_fold, ascii_upper. now rewrite in_range_false by lia.
  - now apply Hdb.
Qed.

Lemma lit_match_letter_space p c :
  ascii_lower p = true -> isspace c = true -> lit_match db true p c = false.
Proof.
  intros Hp Hc. pose proof (isspace_cases c Hc) as Hr.
  pose proof (ascii_lower_range p Hp) as Hpr.
  unfold lit_match, ascii_letter. rewrite Hp, orb_true_r. simpl andb. cbv zeta.
  rewrite (space_tolower c Hc).
  unfold ascii_fold, ascii_upper. rewrite in_range_false by lia.
  apply orb_false_iff. split.
  - apply N.eqb_neq. lia.
  - unfold ignorecase_fixes.
    destruct (p =? 105); [|destruct (p =? 115)]; simpl; try reflexivity;
      rewrite orb_false_r; apply N.eqb_neq; lia.
Qed.

Lemma space_opt_not_word (r : str) : all_space r -> is_word_opt db (head r) = false.
Proof. intros H. destruct H as [|c r' Hc _]; simpl; [reflexivity|now apply space_not_word]. Qed.

End Space.

(** ** Phrases that start and end with a letter *)

Lemma letter_ended_first w :
  letter_ended w = true -> exists p w', w = p :: w' /\ ascii_lower p = true.
Proof.
  unfold letter_ended. destruct w as [|p w']; simpl; [discriminate|].
  destruct (last (p :: w')); [|discriminate].
  intros H. apply andb_prop in H as [H _]. eauto.
Qed.

Lemma letter_ended_last w :
  letter_ended w = true -> exists w' q, w = w' ++ [q] /\ ascii_lower q = true.
Proof.
  unfold letter_ended. destruct (head w) as [p|]; [|discriminate].
  destruct (last w) as [q|] eqn:E; [|discriminate].
  intros H. apply andb_prop in H as [_ H].
  apply last_Some in E as [w' ->]. eauto.
Qed.

Lemma prefix_of_length db ic w : forall s,
  prefix_of db ic w s = true -> (length w <= length s)%nat.
Proof.
  induction w as [|p w IH]; intros [|c s]; simpl; try lia; try discriminate.
  intros H. apply andb_prop in H as [_ H]. apply IH in H. lia.
Qed.

Section Trim.
Context (db : unicode_db) (Hdb : db_respects_space db).

(** A phrase that ends with a letter does not reach into white space. *)
Lemma prefix_of_space w' q : forall r,
  ascii_lower q = true -> all_space r -> prefix_of db true (w' ++ [q]) r = false.
Proof.
  induction w' as [|p w' IH]; intros r Hq Hr; simpl.
  - destruct Hr as [|c r Hc Hr]; [reflexivity|].
    now rewrite (lit_match_letter_space db Hdb q c Hq Hc).
  - destruct Hr as [|c r Hc Hr]; [reflexivity|].
    rewrite IH by assumption. apply andb_false_r.
Qed.

Lemma prefix_of_app_space w' q r : forall s,
  ascii_lower q = true -> all_space r ->
  prefix_of db true (w' ++ [q]) (s ++ r) = prefix_of db true (w' ++ [q]) s.
Proof.
  revert w'. intros w' s. revert w'.
  induction s as [|c s IH]; intros w' Hq Hr.
  - rewrite app_nil_l, prefix_of_space by assumption. now destruct w'.
  - destruct w' as [|p w']; simpl.
    + now destruct (lit_match db true q c).
    + f_equal. now apply IH.
Qed.

Lemma whole_phrase_at_app_space w prev s r :
  letter_ended w = true -> all_space r ->
  whole_phrase_at db w prev (s ++ r) = whole_phrase_at db w prev s.
Proof.
  intros Hw Hr. destruct (letter_ended_last w Hw) as (w' & q & -> & Hq).
  unfold whole_phrase_at. rewrite prefix_of_app_space by assumption.
  destruct (prefix_of db true (w' ++ [q]) s) eqn:E; [|reflexivity].
  pose proof (prefix_of_length db true _ _ E) as Hlen.
  assert (Hh : head (s ++ r) = head s).
  { destruct s; [rewrite length_app in Hlen; simpl in Hlen; lia|reflexivity]. }
  rewrite Hh, take_app_le, drop_app_le by exact Hlen.
  f_equal. unfold at_boundary. f_equal.
  destruct (drop (length (w' ++ [q])) s) as [|d ds]; [|reflexivity].
  simpl. now apply space_opt_not_word.
Qed.

Lemma whole_phrase_in_space w prev r :
  letter_ended w = true -> all_space r -> whole_phrase_in db w prev r = false.
Proof.
  intros Hw Hr. destruct (letter_ended_last w Hw) as (w' & q & -> & Hq).
  revert prev. induction Hr as [|c r Hc Hr IH]; intros prev; cbn [whole_phrase_in].
  - unfold whole_phrase_at. now destruct w'.
  - rewrite IH, orb_false_r. unfold whole_phrase_at.
    assert (Hcr : all_space (c :: r)) by now constructor.
    now rewrite (prefix_of_space w' q (c :: r) Hq Hcr).
Qed.

Lemma whole_phrase_in_app_space w r : forall s prev,
  letter_ended w = true -> all_space r ->
  whole_phrase_in db w prev (s ++ r) = whole_phrase_in db w prev s.
Proof.
  induction s as [|c s IH]; intros prev Hw Hr.
  - rewrite app_nil_l, whole_phrase_in_space by assumption.
    cbn [whole_phrase_in]. unfold whole_phrase_at.
    destruct (letter_ended_first w Hw) as (p & w' & -> & _). reflexivity.
  - change ((c :: s) ++ r) with (c :: (s ++ r)). cbn [whole_phrase_in].
    rewrite IH by assumption. f_equal.
    apply (whole_phrase_at_app_space w prev (c :: s) r Hw Hr).
Qed.

Lemma whole_phrase_in_prev w prev t :
  letter_ended w = true -> is_word_opt db prev = false ->
  whole_phrase_in db w prev t = whole_phrase_in db w None t.
Proof.
  intros Hw Hp. destruct (letter_ended_first w Hw) as (p & w' & -> & _).
  destruct t as [|c t]; cbn [whole_phrase_in]; f_equal;
    unfold whole_phrase_at, at_boundary; simpl; now rewrite Hp.
Qed.

Lemma whole_phrase_in_space_app w l t : forall prev,
  letter_ended w = true -> all_space l -> is_word_opt db prev = false ->
  whole_phrase_in db w prev (l ++ t) = whole_phrase_in db w None t.
Proof.
  induction l as [|c l IH]; intros prev Hw Hl Hp.
  - now apply whole_phrase_in_prev.
  - apply Forall_cons in Hl as [Hc Hl].
    change ((c :: l) ++ t) with (c :: (l ++ t)). cbn [whole_phrase_in].
    rewrite (IH (Some c)); [|assumption|assumption|now apply space_not_word].
    destruct (letter_ended_first w Hw) as (p & w' & -> & Hpl).
    unfold whole_phrase_at. simpl prefix_of.
    now rewrite (lit_match_letter_space db Hdb p c Hpl Hc).
Qed.

Lemma whole_phrase_in_trim w l t r :
  letter_ended w = true -> all_space l -> all_space r ->
  whole_phrase_in db w None (l ++ t ++ r) = whole_phrase_in db w None t.
Proof.
  intros Hw Hl Hr.
  rewrite whole_phrase_in_space_app by auto.
  now apply whole_phrase_in_app_space.
Qed.

End Trim.

(** ** Every rule of the two tables looks for whole phrases *)

Lemma existsb_eq_in {A} (f g : A -> bool) (l : list A) :
  (forall a, In a l -> f a = g a) -> existsb f l = existsb g l.
Proof.
  induction l as [|a l IH]; intros H; simpl; [reflexivity|].
  rewrite (H a) by now left. f_equal. apply IH. intros b Hb. apply H. now right.
Qed.

Lemma fires_bounded db text rule :
  bounded_rule rule = true ->
  fires db text rule = existsb (fun w => whole_phrase_in db w None text) (phrases_of rule).
Proof.
  intros H. apply fires_whole_phrase. unfold bounded_rule, phrases_of in *.
  destruct (re_compile rule.1) as [r|]; [|discriminate]. simpl.
  apply bool_decide_eq_true in H. now f_equal.
Qed.

Lemma tables_bounded :
  forallb (fun rule => bounded_rule rule && forallb letter_ended (phrases_of rule))
          (RED_FLAGS ++ SUGGESTION_RULES) = true.
Proof. vm_compute. reflexivity. Qed.

Lemma table_rule_bounded rule :
  In rule (RED_FLAGS ++ SUGGESTION_RULES) ->
  bounded_rule rule = true /\ forall w, In w (phrases_of rule) -> letter_ended w = true.
Proof.
  intros Hin. pose proof tables_bounded as H. rewrite forallb_forall in H.
  specialize (H rule Hin). apply andb_prop in H as [H1 H2]. split; [assumption|].
  now rewrite forallb_forall in H2.
Qed.

Lemma table_rule_search db text rule :
  In rule (RED_FLAGS ++ SUGGESTION_RULES) ->
  re_search db rule.1 text true = Some (fires db text rule).
Proof.
  intros Hin. destruct (table_rule_bounded rule Hin) as [Hb _].
  unfold bounded_rule in Hb. unfold fires, re_search.
  destruct (re_compile rule.1); [reflexivity|discriminate].
Qed.

(** White space around a text changes nothing for a rule of the tables. *)
Lemma fires_trim db l t r rule :
  db_respects_space db -> In rule (RED_FLAGS ++ SUGGESTION_RULES) ->
  all_space l -> all_space r ->
  fires db (l ++ t ++ r) rule = fires db t rule.
Proof.
  intros Hdb Hin Hl Hr. destruct (table_rule_bounded rule Hin) as [Hb Hw].
  rewrite !fires_bounded by assumption. apply existsb_eq_in. intros w Hwin.
  apply whole_phrase_in_trim; auto.
Qed.

Lemma latin1_above c :
  255 < c -> db_isalnum latin1_db c = false /\ db_tolower latin1_db c = c.
Proof.
  intros H. simpl. rewrite !in_range_false by lia. simpl.
  repeat match goal with
  | |- context [c =? ?k] =>
      replace (c =? k) with false by (symmetry; apply N.eqb_neq; lia)
  end.
  split; reflexivity.
Qed.

Lemma latin1_respects_space : db_respects_space latin1_db.
Proof.
  intros c Hc Hge. pose proof (isspace_cases c Hc) as Hr.
  destruct (N.eq_dec c 0x85) as [->|H1]; [split; reflexivity|].
  destruct (N.eq_dec c 0xA0) as [->|H2]; [split; reflexivity|].
  apply latin1_above. lia.
Qed.

(** ** [strip] and blank strings *)

Lemma lstrip_all_space s : all_space s -> lstrip s = [].
Proof. induction 1 as [|c s Hc Hs IH]; simpl; [reflexivity|now rewrite Hc]. Qed.

Lemma strip_nil_iff s : strip s = [] <-> all_space s.
Proof.
  split.
  - intros H. destruct (strip_spec s) as (l & r & Hs & Hl & Hr & _).
    rewrite H in Hs. rewrite Hs. unfold all_space in *.
    apply Forall_app. split; [assumption|]. now apply Forall_app.
  - intros H. unfold strip. now rewrite (lstrip_all_space s H).
Qed.

Lemma truthy_strip s : truthy (strip s) = false <-> all_space s.
Proof.
  rewrite <- strip_nil_iff. destruct (strip s); simpl; split; congruence.
Qed.

(** ** The suggestions a text gets *)

Lemma filter_sublist {A} (f : A -> bool) (l : list A) : sublist (List.filter f l) l.
Proof.
  induction l as [|x l IH]; simpl; [constructor|].
  destruct (f x); now constructor.
Qed.

Lemma map_sublist {A B} (f : A -> B) (l1 l2 : list A) :
  sublist l1 l2 -> sublist (map f l1) (map f l2).
Proof. induction 1; simpl; now constructor. Qed.

Lemma suggestion_column_NoDup : NoDup (map snd SUGGESTION_RULES).
Proof. apply (bool_decide_unpack _). vm_compute. reflexivity. Qed.

(** Checking by evaluation that a rule is in a table. *)
Lemma rule_in_check (rules : list (str * str)) (rule : str * str) :
  existsb (fun r => match str_cmp r.1 rule.1, str_cmp r.2 rule.2 with
                    | Eq, Eq => true
                    | _, _ => false
                    end) rules = true ->
  rule ∈ rules.
Proof.
  intros H. apply existsb_exists in H as ([p o] & Hin & H). simpl in H.
  destruct (str_cmp p rule.1) eqn:E1; try discriminate.
  destruct (str_cmp o rule.2) eqn:E2; try discriminate.
  apply str_cmp_eq in E1, E2. destruct rule as [p' o']. simpl in *. subst.
  now apply list_elem_of_In.
Qed.

(** X1. Every rule of the two tables, not only the breathing rule, is a
    whole-phrase rule: its pattern matches a text exactly when one of the
    phrases between its parentheses stands in the text, ignoring case,
    with a word boundary on each side. *)
Theorem table_rules_match_whole_phrases db text rule :
  rule ∈ RED_FLAGS ++ SUGGESTION_RULES ->
  re_search db rule.1 text true
  = Some (existsb (fun w => whole_phrase_in db w None text) (phrases_of rule)).
Proof.
  intros Hin. apply list_elem_of_In in Hin.
  rewrite (table_rule_search db text rule Hin). f_equal.
  apply fires_bounded. now apply table_rule_bounded.
Qed.

(** An instance: the breathing rule on a text where the phrase runs on
    into a longer word. *)
Lemma table_rules_match_whole_phrases_witness :
  re_search latin1_db BREATHING_RULE.1 (py "shortness of breathing") true
  = Some (existsb (fun w => whole_phrase_in latin1_db w None (py "shortness of breathing"))
                  (phrases_of BREATHING_RULE)).
Proof.
  apply (table_rules_match_whole_phrases latin1_db (py "shortness of breathing") BREATHING_RULE).
  apply rule_in_check. vm_compute. reflexivity.
Defined.

Lemma filter_fires_trim db l t r rules :
  db_respects_space db -> all_space l -> all_space r ->
  (forall rule, In rule rules -> In rule (RED_FLAGS ++ SUGGESTION_RULES)) ->
  List.filter (fires db (l ++ t ++ r)) rules = List.filter (fires db t) rules.
Proof.
  intros Hdb Hl Hr Hsub. apply filter_ext_in. intros rule Hin.
  apply fires_trim; auto.
Qed.

Lemma functions_trim db l t r :
  db_respects_space db -> all_space l -> all_space r ->
  find_red_flags db (l ++ t ++ r) = find_red_flags db t
  /\ generate_support_suggestions db (l ++ t ++ r) = generate_support_suggestions db t.
Proof.
  intros Hdb Hl Hr. rewrite !find_red_flags_eq, !generate_support_suggestions_eq.
  rewrite (filter_fires_trim db l t r RED_FLAGS) by (auto; intros; apply in_or_app; auto).
  rewrite (filter_fires_trim db l t r SUGGESTION_RULES) by (auto; intros; apply in_or_app; auto).
  split; reflexivity.
Qed.

Lemma functions_strip db text :
  db_respects_space db ->
  find_red_flags db (strip text) = find_red_flags db text
  /\ generate_support_suggestions db (strip text) = generate_support_suggestions db text.
Proof.
  intros Hdb. destruct (strip_spec text) as (l & r & Hs & Hl & Hr & _).
  destruct (functions_trim db l (strip text) r Hdb Hl Hr) as [H1 H2].
  rewrite <- Hs in H1, H2. split; [exact (eq_sym H1)|exact (eq_sym H2)].
Qed.

(** X2. White space around a text does not change what the two functions
    return: for a database that gives white space no case and no letter or
    digit class (as Unicode does), a text between two runs of white space
    gets the red flags and the suggestions of the text alone; so the
    Quick Check, which strips its input, and the Care Log, which does
    not, see the same red flags. *)
Theorem surrounding_space_is_ignored db l t r :
  db_respects_space db -> all_space l -> all_space r ->
  find_red_flags db (l ++ t ++ r) = find_red_flags db t
  /\ generate_support_suggestions db (l ++ t ++ r) = generate_support_suggestions db t
  /\ find_red_flags db (strip (l ++ t ++ r)) = find_red_flags db t
  /\ generate_support_suggestions db (strip (l ++ t ++ r)) = generate_support_suggestions db t.
Proof.
  intros Hdb Hl Hr.
  destruct (functions_trim db l t r Hdb Hl Hr) as [H1 H2].
  destruct (functions_strip db (l ++ t ++ r) Hdb) as [H3 H4].
  repeat split; congruence.
Qed.

(** An instance: a line feed and blanks around "she fainted", with the
    Latin-1 database. *)
Lemma surrounding_space_is_ignored_witness :
  find_red_flags latin1_db (strip ((nl ++ py "  ") ++ py "she fainted" ++ (py " " ++ nl)))
  = find_red_flags latin1_db (py "she fainted")
  /\ find_red_flags latin1_db (py "she fainted") = Some [py "Unresponsive / fainting"].
Proof.
  assert (Hl : all_space (nl ++ py "  ")) by (vm_compute; repeat constructor).
  assert (Hr : all_space (py " " ++ nl)) by (vm_compute; repeat constructor).
  split; [|vm_compute; reflexivity].
  exact (proj1 (proj2 (proj2 (surrounding_space_is_ignored latin1_db _ (py "she fainted") _
                                latin1_respects_space Hl Hr)))).
Defined.

(** X3. The suggestions come in the order of the table and none comes
    twice: the result is either the fallback alone or a sub-list of the
    suggestion column of [SUGGESTION_RULES]. *)
Theorem suggestions_follow_table_order db text :
  exists suggestions,
    generate_support_suggestions db text = Some suggestions
    /\ NoDup suggestions
    /\ (suggestions = [FALLBACK] \/ sublist suggestions (map snd SUGGESTION_RULES)).
Proof.
  eexists. split; [apply generate_support_suggestions_eq|]. cbv zeta.
  assert (Hsub : sublist (map snd (List.filter (fires db text) SUGGESTION_RULES))
                         (map snd SUGGESTION_RULES))
    by apply map_sublist, filter_sublist.
  destruct (map snd (List.filter (fires db text) SUGGESTION_RULES)) as [|x l];
    cbn [truthy_list].
  - split; [|now left]. apply NoDup_singleton.
  - split; [|right; exact Hsub]. eapply sublist_NoDup; [apply suggestion_column_NoDup|exact Hsub].
Qed.

(** X4. An observed text made of white space only (and not empty) is not
    replaced by "N/A": the observed section of the log entry is left
    empty. *)
Theorem blank_observed_text_renders_empty
    clock person_name relationship concern_text severity notes :
  concern_text <> [] -> all_space concern_text ->
  format_log_entry clock person_name relationship concern_text severity notes
  = entry_head clock person_name relationship severity ++ entry_tail notes.
Proof.
  intros Hne Hsp. rewrite format_log_entry_parts.
  apply strip_nil_iff in Hsp. rewrite Hsp.
  destruct concern_text; [contradiction|reflexivity].
Qed.

(** An instance: a tab and two blanks. *)
Lemma blank_observed_text_renders_empty_witness :
  format_log_entry (Datetime 2024 3 5 9 7) (py "Ann") (py "daughter") (9 :: py "  ") 5 []
  = entry_head (Datetime 2024 3 5 9 7) (py "Ann") (py "daughter") 5 ++ entry_tail [].
Proof.
  apply (blank_observed_text_renders_empty (Datetime 2024 3 5 9 7) (py "Ann") (py "daughter")
           (9 :: py "  ") 5 []).
  - discriminate.
  - vm_compute. repeat constructor.
Defined.

(** ** Joining two texts *)

Lemma prefix_of_app db ic w : forall s x,
  prefix_of db ic w s = true -> prefix_of db ic w (s ++ x) = true.
Proof.
  induction w as [|p w IH]; intros [|c s] x; simpl; try discriminate; try reflexivity.
  intros H. apply andb_prop in H as [H1 H2]. rewrite H1. simpl. now apply IH.
Qed.

Section Extend.
Context (db : unicode_db) (Hdb : db_respects_space db).

Lemma whole_phrase_at_extend w prev s c b :
  letter_ended w = true -> isspace c = true ->
  whole_phrase_at db w prev s = true ->
  whole_phrase_at db w prev (s ++ c :: b) = true.
Proof.
  intros Hw Hc. unfold whole_phrase_at. intros H.
  apply andb_prop in H as [H H3]. apply andb_prop in H as [H1 H2].
  pose proof (prefix_of_length db true _ _ H1) as Hlen.
  destruct (letter_ended_first w Hw) as (p & w' & Hweq & _).
  assert (Hh : head (s ++ c :: b) = head s).
  { destruct s; [subst w; simpl in Hlen; lia|reflexivity]. }
  rewrite (prefix_of_app db true w s (c :: b) H1), Hh, H2.
  rewrite take_app_le, drop_app_le by exact Hlen. simpl andb.
  rewrite <- H3. unfold at_boundary. f_equal.
  destruct (drop (length w) s); [|reflexivity].
  simpl. now apply space_not_word.
Qed.

Lemma whole_phrase_in_extend w c b : forall s prev,
  letter_ended w = true -> isspace c = true ->
  whole_phrase_in db w prev s = true ->
  whole_phrase_in db w prev (s ++ c :: b) = true.
Proof.
  induction s as [|x s IH]; intros prev Hw Hc H.
  - cbn [whole_phrase_in] in H. rewrite orb_false_r in H.
    destruct (letter_ended_first w Hw) as (p & w' & -> & _).
    unfold whole_phrase_at in H. simpl in H. discriminate H.
  - change ((x :: s) ++ c :: b) with (x :: (s ++ c :: b)).
    cbn [whole_phrase_in] in *. apply orb_prop in H as [H|H].
    + apply orb_true_intro. left.
      exact (whole_phrase_at_extend w prev (x :: s) c b Hw Hc H).
    + apply orb_true_intro. right. now apply IH.
Qed.

Lemma whole_phrase_in_prepend w c a : forall b prev,
  letter_ended w = true -> isspace c = true ->
  whole_phrase_in db w None a = true ->
  whole_phrase_in db w prev (b ++ c :: a) = true.
Proof.
  induction b as [|x b IH]; intros prev Hw Hc H.
  - cbn [app whole_phrase_in]. apply orb_true_intro. right.
    rewrite whole_phrase_in_prev; [assumption|assumption|].
    simpl. now apply space_not_word.
  - change ((x :: b) ++ c :: a) with (x :: (b ++ c :: a)).
    cbn [whole_phrase_in]. apply orb_true_intro. right. now apply IH.
Qed.

Lemma fires_joined a c b rule :
  In rule (RED_FLAGS ++ SUGGESTION_RULES) -> isspace c = true ->
  fires db a rule = true \/ fires db b rule = true ->
  fires db (a ++ c :: b) rule = true.
Proof.
  intros Hin Hc H. destruct (table_rule_bounded rule Hin) as [Hb Hw].
  rewrite !fires_bounded in * by assumption.
  rewrite existsb_exists. destruct H as [H|H];
    apply existsb_exists in H as (w & Hwin & H); exists w; (split; [assumption|]).
  - apply whole_phrase_in_extend; auto.
  - apply whole_phrase_in_prepend; auto.
Qed.

End Extend.

(** X5. Joining two texts with a white-space character loses no red
    flag: every label [find_red_flags] returns for one of the two texts is
    returned for the joined text (for a database that gives white space no
    letter or digit class). *)
Theorem joined_texts_keep_red_flags db a c b :
  db_respects_space db -> isspace c = true ->
  exists la lb lab,
    find_red_flags db a = Some la
    /\ find_red_flags db b = Some lb
    /\ find_red_flags db (a ++ c :: b) = Some lab
    /\ forall label, label ∈ la \/ label ∈ lb -> label ∈ lab.
Proof.
  intros Hdb Hc. do 3 eexists. rewrite !find_red_flags_eq.
  split; [reflexivity|]. split; [reflexivity|]. split; [reflexivity|].
  intros label. rewrite !sorted_set_elem, !list_elem_of_In, !in_map_iff.
  intros [(rule & Hl & Hin)|(rule & Hl & Hin)];
    apply filter_In in Hin as [Hin Hf]; exists rule; (split; [assumption|]);
    apply filter_In; (split; [assumption|]);
    apply fires_joined; auto; apply in_or_app; auto.
Qed.

(** An instance: "chest pain" and "she fainted" joined by a line feed. *)
Lemma joined_texts_keep_red_flags_witness :
  isspace 10 = true
  /\ exists la lb lab,
       find_red_flags latin1_db (py "chest pain") = Some la
       /\ find_red_flags latin1_db (py "she fainted") = Some lb
       /\ find_red_flags latin1_db (py "chest pain" ++ 10 :: py "she fainted") = Some lab
       /\ forall label, label ∈ la \/ label ∈ lb -> label ∈ lab.
Proof.
  split; [reflexivity|].
  exact (joined_texts_keep_red_flags latin1_db (py "chest pain") 10 (py "she fainted")
           latin1_respects_space eq_refl).
Defined.

(** ** The two form handlers *)

Lemma find_red_flags_nil db : find_red_flags db [] = Some [].
Proof. vm_compute. reflexivity. Qed.

Lemma not_blank_check c : truthy (strip c) = true -> ~ all_space c.
Proof. intros H Hs. apply truthy_strip in Hs. congruence. Qed.

Lemma not_blank_truthy c : ~ all_space c -> truthy (strip c) = true.
Proof.
  intros H. destruct (truthy (strip c)) eqn:E; [reflexivity|].
  exfalso. apply H. now apply truthy_strip.
Qed.

Lemma st_write_inj a b : st_write a = st_write b -> a = b.
Proof. intros H. now injection H. Qed.

Lemma existsb_none {A} (f : A -> bool) (l : list A) :
  (forall x, f x = false) -> existsb f l = false.
Proof. intros H. induction l as [|x l IH]; simpl; [reflexivity|]. now rewrite H, IH. Qed.

Lemma existsb_suggestion_calls (f : st_call -> bool) suggestions :
  f st_divider = false -> (forall b, f (st_subheader b) = false) ->
  (forall b, f (st_write b) = false) -> (forall b, f (st_caption b) = false) ->
  existsb f (suggestion_calls suggestions) = false.
Proof.
  intros Hd Hs Hw Hc. unfold suggestion_calls.
  rewrite !existsb_app, existsb_map. cbn [existsb].
  rewrite Hd, Hs, Hc, (existsb_none (fun a => f (st_write (py "- " ++ a)))) by (intros; apply Hw).
  reflexivity.
Qed.

Lemma run_quick_check_blank db c :
  all_space c -> run_quick_check db c = Some [st_warning (py "Please type something first.")].
Proof.
  intros H. apply truthy_strip in H. unfold run_quick_check. cbv zeta. now rewrite H.
Qed.

Lemma run_quick_check_shape db c :
  ~ all_space c ->
  exists labels suggestions,
    find_red_flags db (strip c) = Some labels
    /\ generate_support_suggestions db (strip c) = Some suggestions
    /\ (1 <= length suggestions <= 7)%nat
    /\ run_quick_check db c = Some (verdict_calls labels ++ suggestion_calls suggestions).
Proof.
  intros H. apply not_blank_truthy in H.
  pose proof (find_red_flags_eq db (strip c)) as HL.
  pose proof (generate_support_suggestions_eq db (strip c)) as HS. cbv zeta in HS.
  do 2 eexists. split; [exact HL|]. split; [exact HS|]. split.
  - assert (Hlen : (length (map snd (List.filter (fires db (strip c)) SUGGESTION_RULES)) <= 7)%nat).
    { rewrite length_map, <- SUGGESTION_RULES_length. apply filter_length_le. }
    destruct (map snd (List.filter (fires db (strip c)) SUGGESTION_RULES));
      cbn [truthy_list length] in *; lia.
  - unfold run_quick_check. cbv zeta. rewrite H, HL, HS. reflexivity.
Qed.

Lemma verdict_calls_warning labels : existsb is_warning (verdict_calls labels) = false.
Proof. unfold verdict_calls. now destruct labels. Qed.

Lemma or_else_nil s : or_else s [] = s.
Proof. now destruct s. Qed.

Lemma generate_log_entry_shape db clock person_name relationship observed severity notes :
  exists labels,
    find_red_flags db observed = Some labels
    /\ generate_log_entry db clock person_name relationship observed severity notes
       = Some (st_text_area (py "Generated note (copy this)")
                 (format_log_entry clock person_name relationship observed severity notes) 260
               :: (if truthy_list labels then
                     [st_warning (py "Red-flag keywords were detected in your observation note:");
                      st_write (join (py ", ") labels)]
                   else [])).
Proof.
  pose proof (find_red_flags_eq db observed) as HL.
  eexists. split; [exact HL|].
  unfold generate_log_entry. cbv zeta. rewrite or_else_nil, HL. reflexivity.
Qed.

(** X6. The Quick Check answers with the warning "Please type something
    first." and nothing else exactly when its input is empty or made of
    white space only. *)
Theorem quick_check_blank_input db c :
  run_quick_check db c = Some [st_warning (py "Please type something first.")]
  <-> all_space c.
Proof.
  split; [|apply run_quick_check_blank].
  intros H. destruct (truthy (strip c)) eqn:E; [|now apply truthy_strip].
  exfalso. apply not_blank_check in E.
  destruct (run_quick_check_shape db c E) as (labels & suggestions & _ & _ & _ & Hrun).
  rewrite Hrun in H. apply Some_inj in H.
  apply (f_equal (existsb is_warning)) in H.
  rewrite existsb_app, verdict_calls_warning, existsb_suggestion_calls in H
    by reflexivity.
  discriminate H.
Qed.

(** X7. On an input that is not blank the Quick Check announces exactly
    one verdict, first thing: the emergency message followed by the
    matched labels joined by ", " when [find_red_flags] returns some label
    for the stripped input, the no-emergency message when it returns none;
    never both, and never the warning of the blank input. *)
Theorem quick_check_verdict db c :
  ~ all_space c ->
  exists trace labels,
    run_quick_check db c = Some trace
    /\ find_red_flags db (strip c) = Some labels
    /\ existsb is_warning trace = false
    /\ (labels <> [] ->
        take 3 trace = [st_error EMERGENCY_MSG;
                        st_write (py "**Red-flag matches:**");
                        st_write (join (py ", ") labels)]
        /\ existsb is_success trace = false)
    /\ (labels = [] ->
        head trace = Some (st_success NON_URGENT_MSG)
        /\ existsb is_error trace = false).
Proof.
  intros H.
  destruct (run_quick_check_shape db c H) as (labels & suggestions & HL & _ & _ & Hrun).
  exists (verdict_calls labels ++ suggestion_calls suggestions), labels.
  split; [exact Hrun|]. split; [exact HL|]. split; [|split].
  - rewrite existsb_app, verdict_calls_warning. now apply existsb_suggestion_calls.
  - intros Hne. destruct labels as [|x l]; [contradiction|].
    unfold verdict_calls. cbn [truthy_list]. split; [reflexivity|].
    rewrite existsb_app. cbn [existsb is_success orb].
    now apply existsb_suggestion_calls.
  - intros ->. unfold verdict_calls. cbn [truthy_list]. split; [reflexivity|].
    rewrite existsb_app. cbn [existsb is_error orb].
    now apply existsb_suggestion_calls.
Qed.

(** An instance: a text with two red flags, blanks around it. *)
Lemma quick_check_verdict_witness :
  ~ all_space (py "  chest pain, then she fainted ")
  /\ exists trace labels,
       run_quick_check latin1_db (py "  chest pain, then she fainted ") = Some trace
       /\ find_red_flags latin1_db (strip (py "  chest pain, then she fainted ")) = Some labels
       /\ existsb is_warning trace = false
       /\ (labels <> [] ->
           take 3 trace = [st_error EMERGENCY_MSG;
                           st_write (py "**Red-flag matches:**");
                           st_write (join (py ", ") labels)]
           /\ existsb is_success trace = false)
       /\ (labels = [] ->
           head trace = Some (st_success NON_URGENT_MSG)
           /\ existsb is_error trace = false).
Proof.
  assert (H : ~ all_space (py "  chest pain, then she fainted "))
    by (apply not_blank_check; vm_compute; reflexivity).
  split; [exact H|].
  exact (quick_check_verdict latin1_db (py "  chest pain, then she fainted ") H).
Defined.

(** X8. On an input that is not blank the Quick Check always ends with
    the suggestions of the stripped input, one "- " line each, at least
    one and at most seven, whether or not an emergency was announced
    before them. *)
Theorem quick_check_lists_suggestions db c :
  ~ all_space c ->
  exists trace verdict suggestions,
    run_quick_check db c = Some trace
    /\ generate_support_suggestions db (strip c) = Some suggestions
    /\ (1 <= length suggestions <= 7)%nat
    /\ trace = verdict
               ++ [st_divider;
                   st_subheader (py "Supportive suggestions (general, non-medical)")]
               ++ map (fun s => st_write (py "- " ++ s)) suggestions
               ++ [st_divider;
                   st_caption (py "Tip: If you want, copy the text into the Care Log tab to keep a record.")].
Proof.
  intros H.
  destruct (run_quick_check_shape db c H) as (labels & suggestions & _ & HS & Hlen & Hrun).
  exists (verdict_calls labels ++ suggestion_calls suggestions), (verdict_calls labels), suggestions.
  repeat split; try assumption; lia.
Qed.

(** An instance: an emergency text that also gets the pain suggestion. *)
Lemma quick_check_lists_suggestions_witness :
  ~ all_space (py "sudden chest pain")
  /\ exists trace verdict suggestions,
       run_quick_check latin1_db (py "sudden chest pain") = Some trace
       /\ generate_support_suggestions latin1_db (strip (py "sudden chest pain")) = Some suggestions
       /\ (1 <= length suggestions <= 7)%nat
       /\ trace = verdict
                  ++ [st_divider;
                      st_subheader (py "Supportive suggestions (general, non-medical)")]
                  ++ map (fun s => st_write (py "- " ++ s)) suggestions
                  ++ [st_divider;
                      st_caption (py "Tip: If you want, copy the text into the Care Log tab to keep a record.")].
Proof.
  assert (H : ~ all_space (py "sudden chest pain"))
    by (apply not_blank_check; vm_compute; reflexivity).
  split; [exact H|].
  exact (quick_check_lists_suggestions latin1_db (py "sudden chest pain") H).
Defined.

(** X9. The Care Log always shows the generated note first, whatever the
    fields hold, and the note is [format_log_entry] of the fields; it adds
    its red-flag warning exactly when some red-flag rule matches the
    observed text as typed, and never announces an emergency. *)
Theorem log_entry_handler db clock person_name relationship observed severity notes :
  exists trace,
    generate_log_entry db clock person_name relationship observed severity notes = Some trace
    /\ head trace
       = Some (st_text_area (py "Generated note (copy this)")
                 (format_log_entry clock person_name relationship observed severity notes) 260)
    /\ (existsb is_warning trace = true <->
        exists pattern label,
          (pattern, label) ∈ RED_FLAGS /\ re_search db pattern observed true = Some true)
    /\ existsb is_error trace = false.
Proof.
  destruct (generate_log_entry_shape db clock person_name relationship observed severity notes)
    as (labels & HL & Hrun).
  eexists. split; [exact Hrun|]. split; [reflexivity|].
  rewrite find_red_flags_eq in HL. apply Some_inj in HL.
  assert (Hmem : forall label, label ∈ labels <->
            exists pattern, (pattern, label) ∈ RED_FLAGS
                            /\ re_search db pattern observed true = Some true).
  { intros label. rewrite <- HL, sorted_set_elem. apply fired_elem. }
  clear HL Hrun. destruct labels as [|x l]; cbn [truthy_list existsb is_warning is_error orb].
  - split; [|reflexivity]. split; [discriminate|].
    intros (pattern & label & Hin & Hs).
    assert (Hx : label ∈ @nil str) by (apply Hmem; eauto). inversion Hx.
  - split; [|reflexivity]. split; [|reflexivity].
    intros _. assert (Hx : x ∈ x :: l) by left.
    apply Hmem in Hx as (pattern & Hin & Hs). eauto.
Qed.

(** X10. The two tabs agree on red flags: for a database that gives white
    space no case and no letter or digit class, the Care Log warns about
    an observed text exactly when the Quick Check announces an emergency
    for the same text, and the line of labels the Care Log writes is a
    line the Quick Check writes too. *)
Theorem tabs_agree_on_red_flags db clock person_name relationship text severity notes :
  db_respects_space db ->
  exists quick log,
    run_quick_check db text = Some quick
    /\ generate_log_entry db clock person_name relationship text severity notes = Some log
    /\ existsb is_error quick = existsb is_warning log
    /\ forall line, st_write line ∈ log -> st_write line ∈ quick.
Proof.
  intros Hdb.
  destruct (generate_log_entry_shape db clock person_name relationship text severity notes)
    as (labels & HL & Hlog).
  destruct (functions_strip db text Hdb) as [Hstrip _].
  destruct (truthy (strip text)) eqn:E.
  - apply not_blank_check in E.
    destruct (run_quick_check_shape db text E) as (labels' & suggestions & HL' & _ & _ & Hrun).
    rewrite Hstrip, HL in HL'. apply Some_inj in HL'. subst labels'.
    do 2 eexists. split; [exact Hrun|]. split; [exact Hlog|].
    rewrite existsb_app, existsb_suggestion_calls, orb_false_r by reflexivity.
    unfold verdict_calls. destruct labels as [|x l]; cbn [truthy_list].
    + split; [reflexivity|]. intros line Hin.
      apply list_elem_of_singleton in Hin. discriminate Hin.
    + split; [reflexivity|]. intros line Hin.
      apply elem_of_cons in Hin as [Hin|Hin]; [discriminate Hin|].
      apply elem_of_cons in Hin as [Hin|Hin]; [discriminate Hin|].
      apply list_elem_of_singleton in Hin. apply st_write_inj in Hin. subst line.
      apply elem_of_app. left. do 2 right. left.
  - assert (Hs : strip text = []) by (destruct (strip text); [reflexivity|discriminate]).
    rewrite Hs, find_red_flags_nil in Hstrip. rewrite HL in Hstrip.
    apply Some_inj in Hstrip. subst labels. cbn [truthy_list] in Hlog.
    apply truthy_strip in E.
    do 2 eexists. split; [exact (run_quick_check_blank db text E)|]. split; [exact Hlog|].
    split; [reflexivity|]. intros line Hin.
    apply list_elem_of_singleton in Hin. discriminate Hin.
Qed.

(** An instance: the same text with blanks around it in both tabs. *)
Lemma tabs_agree_on_red_flags_witness :
  exists quick log,
    run_quick_check latin1_db (py "  she fainted ") = Some quick
    /\ generate_log_entry latin1_db (Datetime 2024 3 5 9 7) (py "Ann") (py "daughter")
         (py "  she fainted ") 5 [] = Some log
    /\ existsb is_error quick = existsb is_warning log
    /\ forall line, st_write line ∈ log -> st_write line ∈ quick.
Proof.
  exact (tabs_agree_on_red_flags latin1_db (Datetime 2024 3 5 9 7) (py "Ann") (py "daughter")
           (py "  she fainted ") 5 [] latin1_respects_space).
Defined.
